(** * Creative Prompt Engineer: the prompt synchronisation logic

    A shallow embedding of
    - [src/components/PromptGenerator.tsx] (the [PromptGenerator] component:
      [handlePromptPartChange], [reAnalyzePrompt], the two [useEffect]s of the
      debounce),
    - [src/services/geminiService.ts] ([breakdownPromptIntoParts],
      [analyzeImageAndGeneratePrompt]),
    - the [ChatBot] component ([handleSend] and its mount effect),
    and the properties the specification states about them.

    JavaScript strings are sequences of UTF-16 code units; they are lists of
    [N] here.  React state is an explicit record, one field per [useState] or
    [useRef]; an event handler, a timer callback or a settled promise is one
    step of a transition function. *)

From Stdlib Require Import String Ascii List Arith NArith Bool Lia.
Import ListNotations.
Open Scope N_scope.

(* ================================================================== *)
(** ** JavaScript strings *)

Module JS.

Definition code_unit := N.
Definition jsstring := list code_unit.

(** An ASCII literal as a JavaScript string. *)
Fixpoint str (s : string) : jsstring :=
  match s with
  | EmptyString => []
  | String c r => N_of_ascii c :: str r
  end.

Definition comma : code_unit := 44.
Definition space : code_unit := 32.
Definition dollar : code_unit := 36.
Definition ampersand : code_unit := 38.
Definition backtick : code_unit := 96.
Definition quote : code_unit := 39.

Definition eqb (a b : jsstring) : bool :=
  if list_eq_dec N.eq_dec a b then true else false.

(** A string is truthy when it is not empty. *)
Definition truthy (s : jsstring) : bool :=
  match s with [] => false | _ :: _ => true end.

(** ECMAScript WhiteSpace and LineTerminator code points, the ones
    [String.prototype.trim] strips. *)
Definition is_ws (c : code_unit) : bool :=
  (c =? 9) || (c =? 10) || (c =? 11) || (c =? 12) || (c =? 13) || (c =? 32)
  || (c =? 160) || (c =? 5760) || ((8192 <=? c) && (c <=? 8202))
  || (c =? 8232) || (c =? 8233) || (c =? 8239) || (c =? 8287)
  || (c =? 12288) || (c =? 65279).

Fixpoint trimStart (s : jsstring) : jsstring :=
  match s with
  | [] => []
  | c :: r => if is_ws c then trimStart r else s
  end.

Definition trimEnd (s : jsstring) : jsstring := rev (trimStart (rev s)).

(** [s.trim()] *)
Definition trim (s : jsstring) : jsstring := trimEnd (trimStart s).

(** [s.split(sep)] for a separator of one code unit.  The result is never
    empty: [''.split(',')] is [['']]. *)
Fixpoint split (sep : code_unit) (s : jsstring) : list jsstring :=
  match s with
  | [] => [[]]
  | c :: r =>
      if c =? sep then [] :: split sep r
      else match split sep r with
           | h :: t => (c :: h) :: t
           | [] => [[c]]
           end
  end.

(** [a.join(sep)] *)
Fixpoint join (sep : jsstring) (l : list jsstring) : jsstring :=
  match l with
  | [] => []
  | [x] => x
  | x :: r => x ++ sep ++ join sep r
  end.

(** Does [pat] occur at the start of [s]? *)
Fixpoint starts_with (pat s : jsstring) : bool :=
  match pat, s with
  | [], _ => true
  | _ :: _, [] => false
  | a :: pat', b :: s' => (a =? b) && starts_with pat' s'
  end.

(** [s.indexOf(pat)], [None] for -1. *)
Fixpoint indexOf (pat s : jsstring) : option nat :=
  if starts_with pat s then Some 0%nat
  else match s with
       | [] => None
       | _ :: r => option_map S (indexOf pat r)
       end.

(** GetSubstitution of ECMA-262 for a string pattern: no captures, no named
    groups.  [$$] is a dollar sign, [$&] the matched text, [$`] the text
    before the match, [$'] the text after it; a dollar sign followed by
    anything else (a digit or [<] included, as there is no capture) stands for
    itself. *)
Fixpoint GetSubstitution (matched before after template : jsstring) : jsstring :=
  match template with
  | [] => []
  | c :: r =>
      if c =? dollar then
        match r with
        | [] => [c]
        | d :: r' =>
            if d =? dollar then dollar :: GetSubstitution matched before after r'
            else if d =? ampersand then matched ++ GetSubstitution matched before after r'
            else if d =? backtick then before ++ GetSubstitution matched before after r'
            else if d =? quote then after ++ GetSubstitution matched before after r'
            else c :: GetSubstitution matched before after r
        end
      else c :: GetSubstitution matched before after r
  end.

(** [s.replace(pat, replacement)] with a string pattern: only the first
    occurrence is replaced, and the replacement is a template. *)
Definition replace (s pat replacement : jsstring) : jsstring :=
  match indexOf pat s with
  | None => s
  | Some pos =>
      let before := firstn pos s in
      let after := skipn (pos + length pat) s in
      before ++ GetSubstitution pat before after replacement ++ after
  end.

End JS.

Import JS.

(* ================================================================== *)
(** ** The comma normalisation of [handlePromptPartChange] *)

(** [.split(',').map(p => p.trim()).filter(p => p).join(', ')] *)
Definition normalize (s : jsstring) : jsstring :=
  join (str ", ") (filter truthy (map trim (split comma s))).

(** What a segment of a normalised string looks like: not empty, without a
    comma, without white space at either end. *)
Definition piece (p : jsstring) : Prop :=
  p <> [] /\ ~ In comma p /\ trim p = p.

(** [pat] occurs in [s] between [pre] and [post], and nowhere before. *)
Definition first_occurrence (pat s pre post : jsstring) : Prop :=
  s = pre ++ pat ++ post /\
  forall pre' post', s = pre' ++ pat ++ post' -> (length pre <= length pre')%nat.

(** [pat] does not occur in [s]. *)
Definition absent (pat s : jsstring) : Prop :=
  forall pre post, s <> pre ++ pat ++ post.


(* ================================================================== *)
(** ** The structured prompt *)

(** The interface [PromptParts], declared with the other types of the
    application (lines 93 to 102 of the second document of
    [src/components/ImageEditor.tsx]): seven named fields and [fullPrompt],
    all strings, the eight properties of the [responseSchema] of
    [geminiService.ts]. *)
Record PromptParts := mkParts {
  scene : jsstring;
  background : jsstring;
  imageType : jsstring;
  style : jsstring;
  texture : jsstring;
  lighting : jsstring;
  details : jsstring;
  fullPrompt : jsstring
}.

(** [keyof PromptParts] *)
Inductive Key :=
| Kscene | Kbackground | KimageType | Kstyle | Ktexture | Klighting | Kdetails
| KfullPrompt.

Definition Key_eqb (a b : Key) : bool :=
  match a, b with
  | Kscene, Kscene | Kbackground, Kbackground | KimageType, KimageType
  | Kstyle, Kstyle | Ktexture, Ktexture | Klighting, Klighting
  | Kdetails, Kdetails | KfullPrompt, KfullPrompt => true
  | _, _ => false
  end.

(** [prev[field]] *)
Definition get (field : Key) (p : PromptParts) : jsstring :=
  match field with
  | Kscene => scene p
  | Kbackground => background p
  | KimageType => imageType p
  | Kstyle => style p
  | Ktexture => texture p
  | Klighting => lighting p
  | Kdetails => details p
  | KfullPrompt => fullPrompt p
  end.

(** [{ ...prev, [field]: value }] *)
Definition set (field : Key) (value : jsstring) (p : PromptParts) : PromptParts :=
  match field with
  | Kscene =>
      mkParts value (background p) (imageType p) (style p) (texture p)
        (lighting p) (details p) (fullPrompt p)
  | Kbackground =>
      mkParts (scene p) value (imageType p) (style p) (texture p)
        (lighting p) (details p) (fullPrompt p)
  | KimageType =>
      mkParts (scene p) (background p) value (style p) (texture p)
        (lighting p) (details p) (fullPrompt p)
  | Kstyle =>
      mkParts (scene p) (background p) (imageType p) value (texture p)
        (lighting p) (details p) (fullPrompt p)
  | Ktexture =>
      mkParts (scene p) (background p) (imageType p) (style p) value
        (lighting p) (details p) (fullPrompt p)
  | Klighting =>
      mkParts (scene p) (background p) (imageType p) (style p) (texture p)
        value (details p) (fullPrompt p)
  | Kdetails =>
      mkParts (scene p) (background p) (imageType p) (style p) (texture p)
        (lighting p) value (fullPrompt p)
  | KfullPrompt =>
      mkParts (scene p) (background p) (imageType p) (style p) (texture p)
        (lighting p) (details p) value
  end.

(** The body of the updater of [handlePromptPartChange] for a component part
    ([field !== 'fullPrompt'], lines 88 to 119).  For a string [x], the test
    [x && x.trim() !== ''] is [truthy x && truthy (trim x)]. *)
Definition editPart (prev : PromptParts) (field : Key) (value : jsstring)
  : PromptParts :=
  let newParts := set field value prev in
  let oldValue := get field prev in
  let newFullPrompt := fullPrompt prev in
  let newFullPrompt :=
    if truthy oldValue && truthy (trim oldValue) then
      replace newFullPrompt oldValue value
    else if truthy value && truthy (trim value) then
      if negb (truthy (trim newFullPrompt)) then value
      else newFullPrompt ++ str ", " ++ value
    else newFullPrompt in
  let newFullPrompt := normalize newFullPrompt in
  set KfullPrompt newFullPrompt newParts.

(* ================================================================== *)
(** ** The AI Gateway, seen from the component *)

(** What a [generateContent] request comes to: a response whose text parses
    (as the response schema asks) to a [PromptParts], or an exception, of the
    request or of [JSON.parse]. *)
Inductive Response :=
| Json (parsed : PromptParts)
| Failure.

(** [analyzeImageAndGeneratePrompt]: the parsed response as it is. *)
Definition analyzeImageAndGeneratePrompt (r : Response) : option PromptParts :=
  match r with
  | Json parsed => Some parsed
  | Failure => None
  end.

(** [breakdownPromptIntoParts]: [parsed.fullPrompt = prompt; return parsed]. *)
Definition breakdownPromptIntoParts (prompt : jsstring) (r : Response)
  : option PromptParts :=
  match r with
  | Json parsed => Some (set KfullPrompt prompt parsed)
  | Failure => None
  end.

(** The requests the component sends. *)
Inductive GatewayCall :=
| AnalyzeImage
| BreakdownPrompt (prompt : jsstring).

Definition is_breakdown (c : GatewayCall) : bool :=
  match c with BreakdownPrompt _ => true | AnalyzeImage => false end.

(* ================================================================== *)
(** ** The [PromptGenerator] component *)

Module PromptGenerator.

(** The hooks of the component that the prompt synchronisation reads or
    writes ([isLoadingGeneration], [generatedImage] and [copied] belong to
    image generation and the clipboard), the timer of the debounce effect,
    the promises not settled yet and the log of the requests sent. *)
Record State := mkState {
  promptParts : option PromptParts;
  isLoadingAnalysis : bool;
  isReanalyzing : bool;
  error : option jsstring;
  userIsEditingFullPrompt : bool;
  initialAnalysisDone : bool;
  debouncedFullPrompt : jsstring;
  (** the [setTimeout] of the debounce effect that is still to fire:
      milliseconds left and the [fullPrompt] its callback closed over *)
  handler : option (N * jsstring);
  (** [runAnalysis] is awaiting [analyzeImageAndGeneratePrompt] *)
  analysisPending : bool;
  (** the prompts of the [breakdownPromptIntoParts] calls awaited *)
  reanalysisPending : list jsstring;
  calls : list GatewayCall
}.

Definition with_promptParts v st :=
  mkState v (isLoadingAnalysis st) (isReanalyzing st) (error st)
    (userIsEditingFullPrompt st) (initialAnalysisDone st)
    (debouncedFullPrompt st) (handler st) (analysisPending st)
    (reanalysisPending st) (calls st).

Definition with_handler v st :=
  mkState (promptParts st) (isLoadingAnalysis st) (isReanalyzing st) (error st)
    (userIsEditingFullPrompt st) (initialAnalysisDone st)
    (debouncedFullPrompt st) v (analysisPending st)
    (reanalysisPending st) (calls st).

Definition with_userIsEditingFullPrompt v st :=
  mkState (promptParts st) (isLoadingAnalysis st) (isReanalyzing st) (error st)
    v (initialAnalysisDone st)
    (debouncedFullPrompt st) (handler st) (analysisPending st)
    (reanalysisPending st) (calls st).

Definition with_debouncedFullPrompt v st :=
  mkState (promptParts st) (isLoadingAnalysis st) (isReanalyzing st) (error st)
    (userIsEditingFullPrompt st) (initialAnalysisDone st)
    v (handler st) (analysisPending st)
    (reanalysisPending st) (calls st).

Definition with_error v st :=
  mkState (promptParts st) (isLoadingAnalysis st) (isReanalyzing st) v
    (userIsEditingFullPrompt st) (initialAnalysisDone st)
    (debouncedFullPrompt st) (handler st) (analysisPending st)
    (reanalysisPending st) (calls st).

Definition with_isReanalyzing v st :=
  mkState (promptParts st) (isLoadingAnalysis st) v (error st)
    (userIsEditingFullPrompt st) (initialAnalysisDone st)
    (debouncedFullPrompt st) (handler st) (analysisPending st)
    (reanalysisPending st) (calls st).

Definition debounce_ms : N := 500.

(** [promptParts?.fullPrompt], [None] for [undefined]. *)
Definition fullPrompt_dep (pp : option PromptParts) : option jsstring :=
  option_map fullPrompt pp.

Definition same_dep (a b : option jsstring) : bool :=
  match a, b with
  | None, None => true
  | Some x, Some y => eqb x y
  | _, _ => false
  end.

(** The body of the debounce effect (lines 62 to 69): a timer of 500 ms
    whose callback closes over the [fullPrompt] of this render. *)
Definition debounceEffect (st : State) : State :=
  match promptParts st with
  | Some p =>
      if truthy (fullPrompt p)
      then with_handler (Some (debounce_ms, fullPrompt p)) st
      else st
  | None => st
  end.

(** [setPromptParts(v)] and the render that follows.  The debounce effect
    has the dependency [promptParts?.fullPrompt]: when that string changed,
    the cleanup of the effect's last run clears its timer and the effect
    runs again; when it did not, the timer is left as it is. *)
Definition setPromptParts (v : option PromptParts) (st : State) : State :=
  let st' := with_promptParts v st in
  if same_dep (fullPrompt_dep (promptParts st)) (fullPrompt_dep v) then st'
  else debounceEffect (with_handler None st').

Definition reanalyze_error : jsstring :=
  str "Failed to re-analyze the prompt. Please try again.".

Definition analyze_error : jsstring :=
  str "Failed to analyze the image. Please try again.".

(** [reAnalyzePrompt(prompt)] up to its [await] (lines 47 to 52). *)
Definition reAnalyzePrompt (prompt : jsstring) (st : State) : State :=
  if negb (truthy (trim prompt)) then st
  else
    mkState (promptParts st) (isLoadingAnalysis st) true None
      (userIsEditingFullPrompt st) (initialAnalysisDone st)
      (debouncedFullPrompt st) (handler st) (analysisPending st)
      (reanalysisPending st ++ [prompt])
      (calls st ++ [BreakdownPrompt prompt]).

(** The body of the second effect (lines 71 to 76). *)
Definition triggerEffect (st : State) : State :=
  if truthy (debouncedFullPrompt st) && userIsEditingFullPrompt st
     && initialAnalysisDone st
  then reAnalyzePrompt (debouncedFullPrompt st)
         (with_userIsEditingFullPrompt false st)
  else st.

(** [setDebouncedFullPrompt(v)] and the render that follows: setting the
    state to the string it holds renders nothing, otherwise the second
    effect, whose dependency is [debouncedFullPrompt], runs. *)
Definition setDebouncedFullPrompt (v : jsstring) (st : State) : State :=
  if eqb (debouncedFullPrompt st) v then st
  else triggerEffect (with_debouncedFullPrompt v st).

(** [handlePromptPartChange(field, value)] (lines 78 to 121). *)
Definition handlePromptPartChange (field : Key) (value : jsstring) (st : State)
  : State :=
  match promptParts st with
  | None => st
  | Some prev =>
      if Key_eqb field KfullPrompt then
        setPromptParts (Some (set KfullPrompt value prev))
          (with_userIsEditingFullPrompt true st)
      else setPromptParts (Some (editPart prev field value)) st
  end.

(** Time passes: the pending timer fires once its delay is over. *)
Definition elapse (ms : N) (st : State) : State :=
  match handler st with
  | None => st
  | Some (remaining, captured) =>
      if remaining <=? ms then setDebouncedFullPrompt captured (with_handler None st)
      else with_handler (Some (remaining - ms, captured)) st
  end.

(** [runAnalysis] from its [await] on (lines 33 to 40). *)
Definition analysisSettled (r : Response) (st : State) : State :=
  if analysisPending st then
    let st1 :=
      match analyzeImageAndGeneratePrompt r with
      | Some result => setPromptParts (Some result) st
      | None => with_error (Some analyze_error) st
      end in
    mkState (promptParts st1) false (isReanalyzing st1) (error st1)
      (userIsEditingFullPrompt st1) true
      (debouncedFullPrompt st1) (handler st1) false
      (reanalysisPending st1) (calls st1)
  else st.

Fixpoint remove_nth {A} (i : nat) (l : list A) : list A :=
  match i, l with
  | _, [] => []
  | O, _ :: r => r
  | S j, x :: r => x :: remove_nth j r
  end.

(** [reAnalyzePrompt] from its [await] on (lines 53 to 59), for the
    [i]-th call awaited. *)
Definition reanalysisSettled (i : nat) (r : Response) (st : State) : State :=
  match nth_error (reanalysisPending st) i with
  | None => st
  | Some prompt =>
      let st0 :=
        mkState (promptParts st) (isLoadingAnalysis st) (isReanalyzing st)
          (error st) (userIsEditingFullPrompt st) (initialAnalysisDone st)
          (debouncedFullPrompt st) (handler st) (analysisPending st)
          (remove_nth i (reanalysisPending st)) (calls st) in
      let st1 :=
        match breakdownPromptIntoParts prompt r with
        | Some result => setPromptParts (Some result) st0
        | None => with_error (Some reanalyze_error) st0
        end in
      with_isReanalyzing false st1
  end.

Inductive Event :=
| UserEdit (field : Key) (value : jsstring)
| Elapse (ms : N)
| AnalysisSettled (r : Response)
| ReanalysisSettled (i : nat) (r : Response).

Definition step (st : State) (e : Event) : State :=
  match e with
  | UserEdit field value => handlePromptPartChange field value st
  | Elapse ms => elapse ms st
  | AnalysisSettled r => analysisSettled r st
  | ReanalysisSettled i r => reanalysisSettled i r st
  end.

Definition run (st : State) (evs : list Event) : State := fold_left step evs st.

(** The component once mounted: the first effect has called [runAnalysis]
    (lines 24 to 32), the other two found nothing to do. *)
Definition mounted : State :=
  mkState None true false None false false [] None true [] [AnalyzeImage].

(** The [breakdownPromptIntoParts] requests of a log. *)
Definition breakdowns (l : list GatewayCall) : list GatewayCall :=
  filter is_breakdown l.

Definition is_fullPrompt_edit (e : Event) : bool :=
  match e with
  | UserEdit KfullPrompt _ => true
  | _ => false
  end.

(** Three edits of the full prompt, [d1] ms between the first two, [d2] ms
    between the last two, and [d3] ms of rest after the last. *)
Definition three_edits (v1 v2 v3 : jsstring) (d1 d2 d3 : N) : list Event :=
  [UserEdit KfullPrompt v1; Elapse d1;
   UserEdit KfullPrompt v2; Elapse d2;
   UserEdit KfullPrompt v3; Elapse d3].

(** An event that commits no prompt and is no edit: time passing, or a
    re-analysis that fails. *)
Definition commits_nothing (e : Event) : bool :=
  match e with
  | Elapse _ => true
  | ReanalysisSettled _ Failure => true
  | _ => false
  end.

Definition quiet (evs : list Event) : bool := forallb commits_nothing evs.

(** The time that passes in a run. *)
Fixpoint elapsed (evs : list Event) : N :=
  match evs with
  | [] => 0
  | Elapse ms :: r => ms + elapsed r
  | _ :: r => elapsed r
  end.

(** Three edits of the full prompt, each followed by other events. *)
Definition three_edits_among (v1 v2 v3 : jsstring)
    (gap1 gap2 gap3 : list Event) : list Event :=
  UserEdit KfullPrompt v1 :: gap1
  ++ UserEdit KfullPrompt v2 :: gap2
  ++ UserEdit KfullPrompt v3 :: gap3.

(** One re-analysis request may follow from a raised flag. *)
Definition flag_budget (st : State) : nat :=
  if userIsEditingFullPrompt st then 1%nat else 0%nat.

Definition count_fullPrompt_edits (evs : list Event) : nat :=
  length (filter is_fullPrompt_edit evs).

Definition no_fullPrompt_edit (evs : list Event) : bool :=
  forallb (fun e => negb (is_fullPrompt_edit e)) evs.

(** The pending timer carries the full prompt of the state. *)
Definition timer_tracks_prompt (st : State) : Prop :=
  forall remaining captured,
    handler st = Some (remaining, captured) ->
    exists p, promptParts st = Some p /\ fullPrompt p = captured.

End PromptGenerator.

(* ================================================================== *)
(** ** The [ChatBot] component *)

Module ChatBot.

Inductive Role := user | model.

(** The interface [ChatMessage], declared with the other types of the
    application (lines 109 to 112 of the second document of
    [src/components/ImageEditor.tsx]): a role, ['user'] or ['model'], and a
    text. *)
Record ChatMessage := mkMessage { role : Role; text : jsstring }.

(** How [chat.sendMessage] settles: with a response and its text, or with
    an exception. *)
Inductive Reply :=
| Answer (response_text : jsstring)
| Thrown.

Record State := mkState {
  chat : bool;                 (** [chat !== null] *)
  messages : list ChatMessage;
  input : jsstring;
  isLoading : bool;
  sent : list jsstring         (** the messages given to [chat.sendMessage] *)
}.

Definition greeting : ChatMessage :=
  mkMessage model (str "Hello! How can I help you with your creative process today?").

Definition fallback : ChatMessage :=
  mkMessage model (str "Sorry, I encountered an error. Please try again.").

(** [useState] initial values. *)
Definition init : State := mkState false [] [] false [].

(** The mount effect (lines 135 to 138 of the part). *)
Definition mount (st : State) : State :=
  mkState true [greeting] (input st) (isLoading st) (sent st).

Definition setInput (v : jsstring) (st : State) : State :=
  mkState (chat st) (messages st) v (isLoading st) (sent st).

(** [handleSend] up to its [await]. *)
Definition handleSend (st : State) : State :=
  if negb (truthy (trim (input st))) || negb (chat st) || isLoading st then st
  else
    let userMessage := mkMessage user (input st) in
    mkState (chat st) (messages st ++ [userMessage]) [] true
      (sent st ++ [input st]).

Definition modelMessage (r : Reply) : ChatMessage :=
  match r with
  | Answer response_text => mkMessage model response_text
  | Thrown => fallback
  end.

(** [handleSend] from its [await] on; a turn is awaited exactly when
    [isLoading] holds. *)
Definition settled (r : Reply) (st : State) : State :=
  if isLoading st then
    mkState (chat st) (messages st ++ [modelMessage r]) (input st) false
      (sent st)
  else st.

Inductive Event :=
| Type_ (v : jsstring)
| Send
| Settled (r : Reply).

Definition step (st : State) (e : Event) : State :=
  match e with
  | Type_ v => setInput v st
  | Send => handleSend st
  | Settled r => settled r st
  end.

Definition run (st : State) (evs : list Event) : State := fold_left step evs st.

(** One submission awaited to its end: the user types, sends, and the turn
    settles. *)
Definition turn (t : jsstring * Reply) : list Event :=
  [Type_ (fst t); Send; Settled (snd t)].

Definition exchange (t : jsstring * Reply) : list ChatMessage :=
  [mkMessage user (fst t); modelMessage (snd t)].

End ChatBot.

(* ================================================================== *)
(** ** The other operations of [geminiService.ts] *)

Module Gateway.

(** The [inlineData] of a part: [data] is [None] for [undefined]. *)
Record InlineData := mkInline { data : option jsstring; mimeType : jsstring }.

(** [fileToGenerativePart(base64, mimeType)]: the data is
    [base64.split(',')[1]]. *)
Definition fileToGenerativePart (base64 mime : jsstring) : InlineData :=
  mkInline (nth_error (split comma base64) 1) mime.

(** How [ai.models.generateImages] settles: a response with its
    [generatedImages] ([None] for an absent property), each with its
    [image.imageBytes], or an exception. *)
Inductive ImagesResponse :=
| Images (generatedImages : option (list jsstring))
| ImagesRejected.

(** [generateImageFromPrompt], [None] when it throws (lines 102 to 106). *)
Definition generateImageFromPrompt (r : ImagesResponse) : option jsstring :=
  match r with
  | Images (Some (base64ImageBytes :: _)) =>
      Some (str "data:image/jpeg;base64," ++ base64ImageBytes)
  | Images (Some []) => None
  | Images None => None
  | ImagesRejected => None
  end.

(** A part of the first candidate's content: its [inlineData], with data
    and MIME type, when it has one. *)
Record Inline := mkPart { part_data : jsstring; part_mimeType : jsstring }.

(** How the [generateContent] of an image edit settles: the parts of the
    first candidate, or an exception. *)
Inductive ContentResponse :=
| Parts (parts : list (option Inline))
| ContentRejected.

(** The loop of [editImageWithPrompt] (lines 126 to 132). *)
Fixpoint firstInline (parts : list (option Inline)) : option jsstring :=
  match parts with
  | [] => None
  | Some inlineData :: _ =>
      Some (str "data:" ++ part_mimeType inlineData ++ str ";base64,"
            ++ part_data inlineData)
  | None :: rest => firstInline rest
  end.

(** [editImageWithPrompt], [None] when it throws. *)
Definition editImageWithPrompt (r : ContentResponse) : option jsstring :=
  match r with
  | Parts parts => firstInline parts
  | ContentRejected => None
  end.

End Gateway.

(* ================================================================== *)
(** ** The [ImageEditor] component *)

Module ImageEditor.

Record State := mkState {
  prompt : jsstring;
  editedImage : option jsstring;
  isLoading : bool;
  error : option jsstring;
  awaited : nat;              (** the [editImageWithPrompt] calls awaited *)
  sent : list jsstring        (** the instructions given to the Gateway *)
}.

Definition edit_error : jsstring :=
  str "Failed to edit image. The model might not support this edit.".

(** [useState] initial values. *)
Definition init : State := mkState [] None false None 0 [].

Definition setPrompt (v : jsstring) (st : State) : State :=
  mkState v (editedImage st) (isLoading st) (error st) (awaited st) (sent st).

(** [handleEditImage] up to its [await] (lines 17 to 23). *)
Definition handleEditImage (st : State) : State :=
  if negb (truthy (prompt st)) then st
  else mkState (prompt st) None true None (S (awaited st))
         (sent st ++ [prompt st]).

(** A click on the button, which is [disabled={isLoading || !prompt}]. *)
Definition click (st : State) : State :=
  if isLoading st || negb (truthy (prompt st)) then st
  else handleEditImage st.

(** [handleEditImage] from its [await] on (lines 27 to 33). *)
Definition settled (r : Gateway.ContentResponse) (st : State) : State :=
  match awaited st with
  | O => st
  | S n =>
      match Gateway.editImageWithPrompt r with
      | Some result => mkState (prompt st) (Some result) false (error st) n (sent st)
      | None => mkState (prompt st) (editedImage st) false (Some edit_error) n (sent st)
      end
  end.

Inductive Event :=
| Type_ (v : jsstring)
| Click
| Settled (r : Gateway.ContentResponse).

Definition step (st : State) (e : Event) : State :=
  match e with
  | Type_ v => setPrompt v st
  | Click => click st
  | Settled r => settled r st
  end.

Definition run (st : State) (evs : list Event) : State := fold_left step evs st.

End ImageEditor.

(* ================================================================== *)
(** ** Image generation in the [PromptGenerator] component *)

Module ImageGeneration.

(** The hooks of [PromptGenerator] with those of the image generation:
    [error] is the one [useState] both share. *)
Record State := mkState {
  core : PromptGenerator.State;
  isLoadingGeneration : bool;
  generatedImage : option jsstring;
  awaited : nat;                  (** the [generateImageFromPrompt] calls awaited *)
  generateCalls : list jsstring   (** the prompts given to the Gateway *)
}.

Definition generate_error : jsstring :=
  str "Failed to generate image. Please try a different prompt.".

(** [handleGenerateImage] up to its [await] (lines 123 to 129). *)
Definition handleGenerateImage (st : State) : State :=
  match PromptGenerator.promptParts (core st) with
  | None => st
  | Some p =>
      if negb (truthy (fullPrompt p)) then st
      else mkState (PromptGenerator.with_error None (core st)) true None
             (S (awaited st)) (generateCalls st ++ [fullPrompt p])
  end.

(** The button is rendered when [promptParts && !isLoadingAnalysis] and is
    [disabled={isLoadingGeneration}]. *)
Definition buttonEnabled (st : State) : bool :=
  match PromptGenerator.promptParts (core st) with
  | Some _ =>
      negb (PromptGenerator.isLoadingAnalysis (core st))
      && negb (isLoadingGeneration st)
  | None => false
  end.

Definition click (st : State) : State :=
  if buttonEnabled st then handleGenerateImage st else st.

(** [handleGenerateImage] from its [await] on (lines 130 to 136). *)
Definition settled (r : Gateway.ImagesResponse) (st : State) : State :=
  match awaited st with
  | O => st
  | S n =>
      match Gateway.generateImageFromPrompt r with
      | Some newImage =>
          mkState (core st) false (Some newImage) n (generateCalls st)
      | None =>
          mkState (PromptGenerator.with_error (Some generate_error) (core st))
            false (generatedImage st) n (generateCalls st)
      end
  end.

Inductive Event :=
| Sync (e : PromptGenerator.Event)
| Click
| Settled (r : Gateway.ImagesResponse).

Definition step (st : State) (e : Event) : State :=
  match e with
  | Sync e' =>
      mkState (PromptGenerator.step (core st) e') (isLoadingGeneration st)
        (generatedImage st) (awaited st) (generateCalls st)
  | Click => click st
  | Settled r => settled r st
  end.

Definition run (st : State) (evs : list Event) : State := fold_left step evs st.

Definition mounted : State :=
  mkState PromptGenerator.mounted false None 0 [].

(** The events of the prompt synchronisation in a run. *)
Fixpoint sync_events (evs : list Event) : list PromptGenerator.Event :=
  match evs with
  | [] => []
  | Sync e :: r => e :: sync_events r
  | _ :: r => sync_events r
  end.

(** A state of the prompt synchronisation without its error message. *)
Definition sync_part (s : PromptGenerator.State) : PromptGenerator.State :=
  PromptGenerator.with_error None s.

End ImageGeneration.

(* ================================================================== *)
(** ** Bursts of edits, and what the normalisation keeps *)

(** A burst: edits of the full prompt, each with the events that follow it
    before the next edit. *)
Definition burst_events (burst : list (jsstring * list PromptGenerator.Event))
  : list PromptGenerator.Event :=
  flat_map (fun e => PromptGenerator.UserEdit KfullPrompt (fst e) :: snd e)
    burst.

(** Each edit of the burst changes the text, starting from [text]; what
    follows it commits nothing and takes less than the debounce delay. *)
Fixpoint quick_changes (text : jsstring)
    (burst : list (jsstring * list PromptGenerator.Event)) : Prop :=
  match burst with
  | [] => True
  | (v, gap) :: r =>
      v <> text /\ PromptGenerator.quiet gap = true
      /\ PromptGenerator.elapsed gap < PromptGenerator.debounce_ms
      /\ quick_changes v r
  end.

(** The text after the burst. *)
Fixpoint last_text (text : jsstring)
    (burst : list (jsstring * list PromptGenerator.Event)) : jsstring :=
  match burst with
  | [] => text
  | (v, _) :: r => last_text v r
  end.

(** The code units of a string that are neither white space nor commas. *)
Definition content (s : jsstring) : jsstring :=
  filter (fun c => negb (is_ws c || (c =? comma))) s.

Definition is_analyze (c : GatewayCall) : bool :=
  match c with AnalyzeImage => true | BreakdownPrompt _ => false end.

(** The [ImageEditor] between two events: a request is awaited exactly
    while [isLoading] holds, with neither image nor error shown; before the
    first request there is neither; after a request has settled there is
    the image or the error, not both; no instruction sent is empty. *)
Definition editor_consistent (st : ImageEditor.State) : Prop :=
  ImageEditor.awaited st = (if ImageEditor.isLoading st then 1 else 0)%nat
  /\ (ImageEditor.isLoading st = true ->
      ImageEditor.sent st <> []
      /\ ImageEditor.editedImage st = None /\ ImageEditor.error st = None)
  /\ (ImageEditor.isLoading st = false -> ImageEditor.sent st = [] ->
      ImageEditor.editedImage st = None /\ ImageEditor.error st = None)
  /\ (ImageEditor.isLoading st = false -> ImageEditor.sent st <> [] ->
      (ImageEditor.editedImage st <> None /\ ImageEditor.error st = None)
      \/ (ImageEditor.editedImage st = None
          /\ ImageEditor.error st = Some ImageEditor.edit_error))
  /\ Forall (fun instruction => instruction <> []) (ImageEditor.sent st).


(** Image generation between two events: a request is awaited exactly
    while [isLoadingGeneration] holds, and then no image is shown; no prompt
    sent is empty. *)
Definition generation_consistent (st : ImageGeneration.State) : Prop :=
  ImageGeneration.awaited st
  = (if ImageGeneration.isLoadingGeneration st then 1 else 0)%nat
  /\ (ImageGeneration.isLoadingGeneration st = true ->
      ImageGeneration.generatedImage st = None)
  /\ Forall (fun p => p <> []) (ImageGeneration.generateCalls st).

(** The prompt synchronisation while there is nothing to edit: no prompt,
    no timer, no re-analysis awaited. *)
Definition nothing_to_edit (st : PromptGenerator.State) : Prop :=
  PromptGenerator.promptParts st = None
  /\ PromptGenerator.handler st = None
  /\ PromptGenerator.reanalysisPending st = [].

Definition is_analysis_settled (e : PromptGenerator.Event) : bool :=
  match e with
  | PromptGenerator.AnalysisSettled _ => true
  | _ => false
  end.

(* ================================================================== *)
(** * Properties *)

(** ** Strings *)

Section StringFacts.

Lemma eqb_eq (a b : jsstring) : eqb a b = true <-> a = b.
Proof.
  unfold eqb. destruct (list_eq_dec N.eq_dec a b); split; congruence.
Qed.

Lemma eqb_neq (a b : jsstring) : eqb a b = false <-> a <> b.
Proof.
  unfold eqb. destruct (list_eq_dec N.eq_dec a b); split; congruence.
Qed.

Lemma eqb_refl (a : jsstring) : eqb a a = true.
Proof. now apply eqb_eq. Qed.

Lemma truthy_false (s : jsstring) : truthy s = false <-> s = [].
Proof. destruct s; simpl; split; congruence. Qed.

Lemma truthy_true (s : jsstring) : truthy s = true <-> s <> [].
Proof. destruct s; simpl; split; congruence. Qed.

Lemma comma_not_ws : is_ws comma = false.
Proof. reflexivity. Qed.

Lemma space_is_ws : is_ws space = true.
Proof. reflexivity. Qed.

(** *** trim *)

Lemma trimStart_all_ws (s : jsstring) :
  trimStart s = [] <-> forallb is_ws s = true.
Proof.
  induction s as [|c r IH]; simpl.
  - tauto.
  - destruct (is_ws c); simpl; [exact IH | split; discriminate].
Qed.

Lemma trimStart_head (s : jsstring) c r :
  trimStart s = c :: r -> is_ws c = false.
Proof.
  induction s as [|d t IH]; simpl; [discriminate|].
  destruct (is_ws d) eqn:E; [exact IH|].
  intros [= -> _]. exact E.
Qed.

Lemma trimStart_idem (s : jsstring) : trimStart (trimStart s) = trimStart s.
Proof.
  destruct (trimStart s) as [|c r] eqn:E; [reflexivity|].
  simpl. now rewrite (trimStart_head _ _ _ E).
Qed.

Lemma trimStart_snoc (s : jsstring) c :
  is_ws c = false -> trimStart (s ++ [c]) = trimStart s ++ [c].
Proof.
  intros Hc. induction s as [|d t IH]; simpl.
  - now rewrite Hc.
  - destruct (is_ws d); [exact IH | reflexivity].
Qed.

Lemma trimEnd_cons (s : jsstring) c :
  is_ws c = false -> trimEnd (c :: s) = c :: trimEnd s.
Proof.
  intros Hc. unfold trimEnd. simpl.
  rewrite trimStart_snoc by assumption.
  now rewrite rev_app_distr.
Qed.

Lemma forallb_rev {A} (f : A -> bool) (l : list A) :
  forallb f (rev l) = forallb f l.
Proof.
  induction l as [|x r IH]; simpl; [reflexivity|].
  rewrite forallb_app, IH. simpl. rewrite andb_true_r. apply andb_comm.
Qed.

Lemma trimEnd_all_ws (s : jsstring) :
  trimEnd s = [] <-> forallb is_ws s = true.
Proof.
  unfold trimEnd. rewrite <- (forallb_rev is_ws s), <- trimStart_all_ws.
  split; intros H.
  - apply (f_equal (@rev _)) in H. now rewrite rev_involutive in H.
  - now rewrite H.
Qed.

(** A string trims to the empty string exactly when it is made of white
    space only. *)
Lemma trim_all_ws (s : jsstring) : trim s = [] <-> forallb is_ws s = true.
Proof.
  unfold trim. rewrite trimEnd_all_ws. split; intros H.
  - destruct (trimStart s) as [|c r] eqn:E.
    + now apply trimStart_all_ws.
    + simpl in H. now rewrite (trimStart_head _ _ _ E) in H.
  - apply trimStart_all_ws in H. now rewrite H.
Qed.

Lemma trim_ws_cons (s : jsstring) c : is_ws c = true -> trim (c :: s) = trim s.
Proof. intros Hc. unfold trim. simpl. now rewrite Hc. Qed.

Lemma trimEnd_idem (s : jsstring) : trimEnd (trimEnd s) = trimEnd s.
Proof.
  unfold trimEnd. now rewrite rev_involutive, trimStart_idem.
Qed.

Lemma trim_idem (s : jsstring) : trim (trim s) = trim s.
Proof.
  unfold trim at 2 3.
  destruct (trimStart s) as [|c r] eqn:E; [reflexivity|].
  pose proof (trimStart_head _ _ _ E) as Hc.
  rewrite trimEnd_cons by assumption.
  unfold trim. simpl. rewrite Hc.
  rewrite trimEnd_cons by assumption. now rewrite trimEnd_idem.
Qed.

Lemma trimStart_incl (s : jsstring) c : In c (trimStart s) -> In c s.
Proof.
  induction s as [|d t IH]; simpl; [tauto|].
  destruct (is_ws d); simpl; tauto.
Qed.

Lemma trim_incl (s : jsstring) c : In c (trim s) -> In c s.
Proof.
  unfold trim, trimEnd. intros H.
  apply in_rev, trimStart_incl in H. apply in_rev in H.
  now apply trimStart_incl.
Qed.

End StringFacts.

(** ** Splitting, joining and the normalisation *)

Section Normalisation.

Lemma split_not_nil sep (s : jsstring) : split sep s <> [].
Proof.
  induction s as [|c r IH]; simpl; [discriminate|].
  destruct (c =? sep); [discriminate|].
  destruct (split sep r); [contradiction | discriminate].
Qed.

Lemma split_cons_other sep c (s : jsstring) :
  c <> sep ->
  exists h t, split sep s = h :: t /\ split sep (c :: s) = (c :: h) :: t.
Proof.
  intros Hc. simpl. apply N.eqb_neq in Hc. rewrite Hc.
  destruct (split sep s) as [|h t] eqn:E.
  - now apply split_not_nil in E.
  - now exists h, t.
Qed.

Lemma split_app_sep sep (a b : jsstring) :
  split sep (a ++ sep :: b) = split sep a ++ split sep b.
Proof.
  induction a as [|c r IH]; simpl.
  - now rewrite N.eqb_refl.
  - destruct (c =? sep); [now rewrite IH|].
    rewrite IH. destruct (split sep r) as [|h t] eqn:E; [|reflexivity].
    now apply split_not_nil in E.
Qed.

Lemma split_no_sep sep (s : jsstring) : ~ In sep s -> split sep s = [s].
Proof.
  induction s as [|c r IH]; simpl; intros H; [reflexivity|].
  destruct (N.eqb_spec c sep) as [->|_]; [tauto|].
  rewrite IH by tauto. reflexivity.
Qed.

Lemma split_segments sep (s : jsstring) :
  Forall (fun seg => ~ In sep seg) (split sep s).
Proof.
  induction s as [|c r IH]; simpl.
  - constructor; [tauto | constructor].
  - destruct (N.eqb_spec c sep) as [->|Hc].
    + constructor; [tauto | exact IH].
    + destruct (split sep r) as [|h t]; [repeat constructor; simpl; intuition|].
      inversion IH; subst. constructor; [simpl; intuition | assumption].
Qed.

(** White space in front of a string is lost in the trimmed segments. *)
Lemma map_trim_split_ws c (s : jsstring) :
  is_ws c = true ->
  map trim (split comma (c :: s)) = map trim (split comma s).
Proof.
  intros Hc.
  assert (c <> comma) as Hne by (intros ->; now rewrite comma_not_ws in Hc).
  destruct (split_cons_other comma c s Hne) as (h & t & E1 & E2).
  rewrite E1, E2. simpl. now rewrite trim_ws_cons.
Qed.

Lemma pieces_of_split (s : jsstring) :
  Forall piece (filter truthy (map trim (split comma s))).
Proof.
  apply Forall_forall. intros p Hp.
  apply filter_In in Hp. destruct Hp as [Hin Ht].
  apply in_map_iff in Hin. destruct Hin as (seg & <- & Hseg).
  pose proof (split_segments comma s) as Hall.
  rewrite Forall_forall in Hall. specialize (Hall _ Hseg).
  repeat split.
  - now apply truthy_true.
  - intros Hc. apply Hall. now apply trim_incl.
  - apply trim_idem.
Qed.

Lemma join_cons2 sep (x y : jsstring) l :
  join sep (x :: y :: l) = x ++ sep ++ join sep (y :: l).
Proof. reflexivity. Qed.

(** Splitting and trimming the join of pieces gives the pieces back. *)
Lemma pieces_of_join (ps : list jsstring) :
  Forall piece ps ->
  filter truthy (map trim (split comma (join (str ", ") ps))) = ps.
Proof.
  induction ps as [|p qs IH]; intros H; [reflexivity|].
  inversion H as [|? ? (Hne & Hnc & Htrim) Hqs]; subst.
  destruct qs as [|q qs].
  - simpl. rewrite split_no_sep by assumption. simpl.
    rewrite Htrim. apply truthy_true in Hne. now rewrite Hne.
  - rewrite join_cons2.
    change (str ", " ++ join (str ", ") (q :: qs))
      with (comma :: space :: join (str ", ") (q :: qs)).
    rewrite split_app_sep, map_app, filter_app.
    rewrite split_no_sep by assumption.
    rewrite map_trim_split_ws by apply space_is_ws.
    rewrite (IH Hqs). simpl.
    rewrite Htrim. apply truthy_true in Hne. now rewrite Hne.
Qed.

Lemma normalize_app_comma (a b : jsstring) :
  normalize (a ++ comma :: b)
  = join (str ", ")
      (filter truthy (map trim (split comma a))
       ++ filter truthy (map trim (split comma b))).
Proof.
  unfold normalize. now rewrite split_app_sep, map_app, filter_app.
Qed.

(** A string of white space normalises to the empty string. *)
Lemma pieces_of_blank (s : jsstring) :
  trim s = [] -> filter truthy (map trim (split comma s)) = [].
Proof.
  intros H. rewrite split_no_sep.
  - simpl. now rewrite H.
  - intros Hin. apply trim_all_ws in H.
    rewrite forallb_forall in H. apply H in Hin.
    now rewrite comma_not_ws in Hin.
Qed.

Lemma normalize_blank (s : jsstring) : trim s = [] -> normalize s = [].
Proof. intros H. unfold normalize. now rewrite pieces_of_blank. Qed.

(** Appending a comma and white space changes nothing. *)
Lemma normalize_app_blank (a v : jsstring) :
  trim v = [] -> normalize (a ++ str ", " ++ v) = normalize a.
Proof.
  intros H.
  change (a ++ str ", " ++ v) with (a ++ comma :: (space :: v)).
  rewrite normalize_app_comma, (pieces_of_blank (space :: v)).
  - now rewrite app_nil_r.
  - now rewrite trim_ws_cons by apply space_is_ws.
Qed.

End Normalisation.

(** C5. Normalisation is idempotent: for every string, splitting on commas,
    trimming each segment, dropping the empty segments and rejoining with a
    comma and a space gives, applied twice, what it gives applied once. *)
Theorem normalize_idempotent (s : jsstring) :
  normalize (normalize s) = normalize s.
Proof.
  unfold normalize.
  now rewrite pieces_of_join by apply pieces_of_split.
Qed.

(** ** Searching and replacing *)

Section Replace.

Lemma starts_with_spec (pat s : jsstring) :
  starts_with pat s = true <-> exists post, s = pat ++ post.
Proof.
  revert s. induction pat as [|a pat IH]; intros s; simpl.
  - split; [intros _; now exists s | reflexivity].
  - destruct s as [|b s].
    + split; [discriminate | intros [post H]; discriminate].
    + rewrite andb_true_iff, N.eqb_eq, IH. split.
      * intros [-> [post ->]]. now exists post.
      * intros [post [= -> ->]]. split; [reflexivity | now exists post].
Qed.

Lemma indexOf_Some (pat s : jsstring) n :
  indexOf pat s = Some n ->
  first_occurrence pat s (firstn n s) (skipn (n + length pat) s)
  /\ length (firstn n s) = n.
Proof.
  revert n. induction s as [|c r IH]; intros n; simpl.
  - destruct (starts_with pat []) eqn:E; [|discriminate].
    intros [= <-]. apply starts_with_spec in E. destruct E as [post E].
    symmetry in E. apply app_eq_nil in E. destruct E as [-> ->].
    repeat split; simpl; intros; lia.
  - destruct (starts_with pat (c :: r)) eqn:E.
    + intros [= <-]. apply starts_with_spec in E. destruct E as [post E].
      repeat split; simpl; try lia.
      rewrite E at 2. rewrite skipn_app, skipn_all, Nat.sub_diag. simpl.
      exact E.
    + destruct (indexOf pat r) as [m|] eqn:Em; [|discriminate].
      simpl. intros [= <-].
      destruct (IH m eq_refl) as [[Heq Hmin] Hlen].
      repeat split; simpl.
      * now rewrite <- Heq.
      * intros pre' post' H. destruct pre' as [|c' pre'].
        -- simpl in H. assert (starts_with pat (c :: r) = true) as E'
             by (apply starts_with_spec; now exists post').
           congruence.
        -- injection H as _ H. simpl. apply le_n_S. now apply (Hmin _ post').
      * now rewrite Hlen.
Qed.

Lemma indexOf_None (pat s : jsstring) : indexOf pat s = None -> absent pat s.
Proof.
  induction s as [|c r IH]; simpl.
  - destruct (starts_with pat []) eqn:E; [discriminate|]. intros _ pre post H.
    assert (starts_with pat [] = true) as E'; [|congruence].
    apply starts_with_spec. exists post.
    destruct pre; [exact H | discriminate].
  - destruct (starts_with pat (c :: r)) eqn:E; [discriminate|].
    destruct (indexOf pat r) eqn:Em; [discriminate|]. intros _ pre post H.
    destruct pre as [|c' pre].
    + assert (starts_with pat (c :: r) = true) as E'; [|congruence].
      apply starts_with_spec. now exists post.
    + injection H as _ H. now apply (IH eq_refl pre post).
Qed.

(** The first occurrence is where [indexOf] finds it. *)
Lemma first_occurrence_unique (pat s pre post pre' post' : jsstring) :
  first_occurrence pat s pre post -> first_occurrence pat s pre' post' ->
  pre = pre' /\ post = post'.
Proof.
  intros [H1 M1] [H2 M2].
  pose proof (M1 _ _ H2). pose proof (M2 _ _ H1).
  assert (length pre = length pre') as Hlen by lia.
  assert (pre = pre') as <-.
  { rewrite H1 in H2.
    apply (f_equal (firstn (length pre))) in H2.
    rewrite firstn_app, firstn_all, Nat.sub_diag in H2. simpl in H2.
    rewrite app_nil_r in H2. rewrite H2, Hlen.
    rewrite firstn_app, firstn_all, Nat.sub_diag. simpl.
    now rewrite app_nil_r. }
  split; [reflexivity|].
  rewrite H1 in H2. now do 2 apply app_inv_head in H2.
Qed.

(** A template without a dollar sign stands for itself. *)
Lemma GetSubstitution_literal (matched before after template : jsstring) :
  ~ In dollar template ->
  GetSubstitution matched before after template = template.
Proof.
  induction template as [|c r IH]; simpl; intros H; [reflexivity|].
  destruct (N.eqb_spec c dollar) as [->|_]; [tauto|].
  rewrite IH by tauto. reflexivity.
Qed.

Lemma replace_first (s pat value pre post : jsstring) :
  ~ In dollar value -> first_occurrence pat s pre post ->
  replace s pat value = pre ++ value ++ post.
Proof.
  intros Hv Hocc. unfold replace.
  destruct (indexOf pat s) as [n|] eqn:E.
  - apply indexOf_Some in E. destruct E as [E _].
    destruct (first_occurrence_unique _ _ _ _ _ _ Hocc E) as [<- <-].
    now rewrite GetSubstitution_literal.
  - apply indexOf_None in E. destruct Hocc as [H _]. now apply E in H.
Qed.



Lemma replace_absent (s pat value : jsstring) :
  absent pat s -> replace s pat value = s.
Proof.
  intros H. unfold replace.
  destruct (indexOf pat s) as [n|] eqn:E; [|reflexivity].
  apply indexOf_Some in E. destruct E as [[E _] _]. now apply H in E.
Qed.

End Replace.

(** ** Editing a component part *)

Import PromptGenerator.

Section PartEdit.

Lemma promptParts_setPromptParts v st : promptParts (setPromptParts v st) = v.
Proof.
  unfold setPromptParts, debounceEffect.
  destruct (same_dep _ _); [reflexivity|]. simpl.
  destruct v as [p|]; [|reflexivity].
  now destruct (truthy (fullPrompt p)).
Qed.

Lemma Key_eqb_eq a b : Key_eqb a b = true <-> a = b.
Proof. destruct a, b; simpl; split; congruence. Qed.

Lemma Key_eqb_neq a b : a <> b -> Key_eqb a b = false.
Proof.
  intros H. destruct (Key_eqb a b) eqn:E; [|reflexivity].
  now apply Key_eqb_eq in E.
Qed.

(** A component part edit commits [editPart] of the prompt. *)
Lemma promptParts_part_edit st p field value :
  promptParts st = Some p -> field <> KfullPrompt ->
  promptParts (step st (UserEdit field value)) = Some (editPart p field value).
Proof.
  intros Hp Hf. simpl. unfold handlePromptPartChange.
  rewrite Hp, (Key_eqb_neq _ _ Hf). apply promptParts_setPromptParts.
Qed.

Lemma fullPrompt_set_fullPrompt v p : fullPrompt (set KfullPrompt v p) = v.
Proof. reflexivity. Qed.

Lemma get_set_same field v p : get field (set field v p) = v.
Proof. now destruct field. Qed.

Lemma get_set_other field other v p :
  other <> field -> get other (set field v p) = get other p.
Proof. destruct field, other; simpl; congruence. Qed.


Lemma blank_not_truthy (s : jsstring) :
  trim s = [] -> truthy s && truthy (trim s) = false.
Proof. intros ->. apply andb_false_r. Qed.

End PartEdit.




(** C6.  When the edited part's old value is empty and the new value is not:
    if the old full prompt is blank, the new full prompt is the normalised
    new value; otherwise it is the normalisation of the old full prompt, a
    comma, a space and the new value. *)
Theorem part_edit_appends_when_empty st p field value :
  promptParts st = Some p ->
  field <> KfullPrompt ->
  get field p = [] ->
  value <> [] ->
  (trim (fullPrompt p) = [] ->
     fullPrompt_dep (promptParts (step st (UserEdit field value)))
     = Some (normalize value))
  /\ (trim (fullPrompt p) <> [] ->
     fullPrompt_dep (promptParts (step st (UserEdit field value)))
     = Some (normalize (fullPrompt p ++ str ", " ++ value))).
Proof.
  intros Hp Hf Hold Hv.
  rewrite (promptParts_part_edit _ _ _ _ Hp Hf).
  unfold fullPrompt_dep, option_map, editPart.
  rewrite fullPrompt_set_fullPrompt, Hold.
  change (truthy [] && truthy (trim [])) with false. cbv iota.
  destruct (truthy value && truthy (trim value)) eqn:E.
  - split; intros H.
    + now rewrite H.
    + apply truthy_true in H. now rewrite H.
  - assert (trim value = []) as Hblank.
    { apply truthy_true in Hv. rewrite Hv in E. now apply truthy_false. }
    split; intros H.
    + now rewrite (normalize_blank _ H), (normalize_blank _ Hblank).
    + now rewrite normalize_app_blank.
Qed.

(** The spec's example of C6: with an empty texture and the full prompt
    "a cat", editing the texture to "glossy" gives "a cat, glossy". *)
Lemma part_edit_appends_when_empty_witness :
  let p := mkParts (str "a cat") [] [] [] [] [] [] (str "a cat") in
  let st := run mounted [AnalysisSettled (Json p)] in
  (promptParts st = Some p /\ Ktexture <> KfullPrompt
   /\ get Ktexture p = [] /\ str "glossy" <> []
   /\ trim (fullPrompt p) <> [])
  /\ fullPrompt_dep (promptParts (step st (UserEdit Ktexture (str "glossy"))))
     = Some (str "a cat, glossy").
Proof.
  intros p st.
  assert (promptParts st = Some p) as H1 by reflexivity.
  assert (Ktexture <> KfullPrompt) as H2 by discriminate.
  assert (get Ktexture p = []) as H3 by reflexivity.
  assert (str "glossy" <> []) as H4 by discriminate.
  assert (trim (fullPrompt p) <> []) as H5 by (vm_compute; discriminate).
  split; [exact (conj H1 (conj H2 (conj H3 (conj H4 H5))))|].
  exact (proj2 (part_edit_appends_when_empty st p Ktexture (str "glossy")
                  H1 H2 H3 H4) H5).
Defined.

(** C9.  A component part edit leaves the six other named parts as they
    were and gives the edited part exactly the value supplied: only it and
    the full prompt may change. *)
Theorem part_edit_frame st p field value :
  promptParts st = Some p ->
  field <> KfullPrompt ->
  exists p',
    promptParts (step st (UserEdit field value)) = Some p'
    /\ get field p' = value
    /\ forall other, other <> field -> other <> KfullPrompt ->
                     get other p' = get other p.
Proof.
  intros Hp Hf. exists (editPart p field value).
  split; [now apply promptParts_part_edit|].
  unfold editPart. split.
  - rewrite get_set_other by assumption. apply get_set_same.
  - intros other Ho Hfull. now rewrite !get_set_other by assumption.
Qed.

Lemma part_edit_frame_witness :
  let p := mkParts (str "a cat") (str "a sofa") [] [] [] [] []
             (str "a cat, a sofa") in
  let st := run mounted [AnalysisSettled (Json p)] in
  (promptParts st = Some p /\ Kscene <> KfullPrompt)
  /\ exists p',
    promptParts (step st (UserEdit Kscene (str "a dog"))) = Some p'
    /\ get Kscene p' = str "a dog"
    /\ forall other, other <> Kscene -> other <> KfullPrompt ->
                     get other p' = get other p.
Proof.
  intros p st.
  assert (promptParts st = Some p) as H1 by reflexivity.
  assert (Kscene <> KfullPrompt) as H2 by discriminate.
  split; [exact (conj H1 H2)|].
  exact (part_edit_frame st p Kscene (str "a dog") H1 H2).
Defined.

(** ** Re-analysis of the full prompt *)

Ltac unfold_handlers :=
  unfold step, handlePromptPartChange, elapse, analysisSettled,
    reanalysisSettled, setDebouncedFullPrompt, triggerEffect, reAnalyzePrompt,
    setPromptParts, debounceEffect, analyzeImageAndGeneratePrompt,
    breakdownPromptIntoParts, with_promptParts, with_handler,
    with_userIsEditingFullPrompt, with_debouncedFullPrompt, with_error,
    with_isReanalyzing in *.

Ltac case_matches :=
  repeat match goal with
         | |- context [match ?x with _ => _ end] => destruct x eqn:?
         end.

(** C2.  When the re-analysis of a submitted text [T] succeeds, the prompt
    is replaced by the Gateway's response with [T] itself for full prompt:
    the seven named parts are the response's, the full prompt is [T],
    whatever full prompt the response holds. *)
Theorem reanalysis_keeps_submitted_text st i T parsed :
  nth_error (reanalysisPending st) i = Some T ->
  exists p',
    promptParts (step st (ReanalysisSettled i (Json parsed))) = Some p'
    /\ fullPrompt p' = T
    /\ forall field, field <> KfullPrompt -> get field p' = get field parsed.
Proof.
  intros Hi. exists (set KfullPrompt T parsed). split; [|split].
  - simpl. unfold reanalysisSettled. rewrite Hi. simpl.
    apply promptParts_setPromptParts.
  - reflexivity.
  - intros field Hf. now apply get_set_other.
Qed.

Lemma reanalysis_keeps_submitted_text_witness :
  let p := mkParts (str "a cat") [] [] [] [] [] [] (str "a cat, sitting") in
  let echoed := mkParts (str "a dog") (str "a park") [] [] [] [] []
                  (str "A dog in a park.") in
  let st := run mounted [AnalysisSettled (Json p);
                         UserEdit KfullPrompt (str "a dog, in a park");
                         Elapse 500] in
  (calls st = [AnalyzeImage; BreakdownPrompt (str "a dog, in a park")]
   /\ nth_error (reanalysisPending st) 0 = Some (str "a dog, in a park"))
  /\ exists p',
    promptParts (step st (ReanalysisSettled 0 (Json echoed))) = Some p'
    /\ fullPrompt p' = str "a dog, in a park"
    /\ forall field, field <> KfullPrompt -> get field p' = get field echoed.
Proof.
  intros p echoed st.
  assert (nth_error (reanalysisPending st) 0 = Some (str "a dog, in a park"))
    as H1 by reflexivity.
  split; [split; [reflexivity | exact H1]|].
  exact (reanalysis_keeps_submitted_text st 0%nat (str "a dog, in a park")
           echoed H1).
Defined.

(** C7.  When a re-analysis fails, the error is set and the prompt, its
    seven named parts and the full prompt the user typed, is what it was;
    sending the request had not changed it either. *)
Theorem failed_reanalysis_keeps_prompt st i T :
  nth_error (reanalysisPending st) i = Some T ->
  promptParts (step st (ReanalysisSettled i Failure)) = promptParts st
  /\ error (step st (ReanalysisSettled i Failure)) = Some reanalyze_error
  /\ isReanalyzing (step st (ReanalysisSettled i Failure)) = false
  /\ forall st0 ms, promptParts (step st0 (Elapse ms)) = promptParts st0.
Proof.
  intros Hi. simpl. unfold reanalysisSettled. rewrite Hi. simpl.
  repeat split.
  intros st0 ms. unfold_handlers. now case_matches.
Qed.

Lemma failed_reanalysis_keeps_prompt_witness :
  let p := mkParts (str "a cat") [] [] [] [] [] [] (str "a cat, sitting") in
  let typed := mkParts (str "a cat") [] [] [] [] [] [] (str "a dog") in
  let st := run mounted [AnalysisSettled (Json p);
                         UserEdit KfullPrompt (str "a dog");
                         Elapse 500] in
  (promptParts st = Some typed
   /\ nth_error (reanalysisPending st) 0 = Some (str "a dog"))
  /\ promptParts (step st (ReanalysisSettled 0 Failure)) = Some typed
  /\ error (step st (ReanalysisSettled 0 Failure)) = Some reanalyze_error.
Proof.
  intros p typed st.
  assert (nth_error (reanalysisPending st) 0 = Some (str "a dog"))
    as H1 by reflexivity.
  assert (promptParts st = Some typed) as H2 by reflexivity.
  split; [exact (conj H2 H1)|].
  destruct (failed_reanalysis_keeps_prompt st 0%nat (str "a dog") H1)
    as (Hp & He & _).
  split; [now rewrite Hp | exact He].
Defined.

(** ** The debounce and the dirty flag *)

Section Debounce.

(** What one step does to the log and to the dirty flag: either it sends
    nothing, and then raises the flag only if it is an edit of the full
    prompt; or it is a timer firing that sends one re-analysis request, with
    the flag up before and down after. *)
Lemma step_effect st e :
  (calls (step st e) = calls st
   /\ (userIsEditingFullPrompt (step st e) = true ->
       userIsEditingFullPrompt st = true \/ is_fullPrompt_edit e = true))
  \/ (exists v ms,
        e = Elapse ms
        /\ calls (step st e) = calls st ++ [BreakdownPrompt v]
        /\ userIsEditingFullPrompt st = true
        /\ userIsEditingFullPrompt (step st e) = false).
Proof.
  destruct e as [field value|ms|r|i r].
  - left. destruct field; unfold_handlers; simpl; case_matches; simpl; auto.
  - unfold_handlers; simpl.
    destruct (handler st) as [[remaining captured]|]; [|left; split; [reflexivity | auto]].
    destruct (remaining <=? ms); [|left; split; [reflexivity | auto]]. simpl.
    destruct (eqb (debouncedFullPrompt st) captured); [left; split; [reflexivity | auto]|]. simpl.
    destruct (truthy captured); [|left; split; [reflexivity | auto]]. simpl.
    destruct (userIsEditingFullPrompt st) eqn:Hflag; [|left; split; [reflexivity | auto]]. simpl.
    destruct (initialAnalysisDone st); [|left; split; [reflexivity | auto]]. simpl.
    destruct (truthy (trim captured)); simpl.
    + right. exists captured, ms. auto.
    + left. split; [reflexivity | discriminate].
  - left. unfold_handlers; simpl; case_matches; simpl; auto.
  - left. unfold_handlers; simpl; case_matches; simpl; auto.
Qed.

Lemma run_app st evs evs' : run st (evs ++ evs') = run (run st evs) evs'.
Proof. apply fold_left_app. Qed.

Lemma run_cons st e evs : run st (e :: evs) = run (step st e) evs.
Proof. reflexivity. Qed.

Lemma breakdowns_app l l' : breakdowns (l ++ l') = breakdowns l ++ breakdowns l'.
Proof. apply filter_app. Qed.

(** Every re-analysis request is paid for by a raised flag, and the flag is
    raised only by an edit of the full prompt. *)
Lemma reanalysis_budget st evs :
  (length (breakdowns (calls (run st evs))) + flag_budget (run st evs)
   <= length (breakdowns (calls st)) + flag_budget st
      + count_fullPrompt_edits evs)%nat.
Proof.
  revert st. induction evs as [|e evs IH]; intros st.
  - simpl. unfold count_fullPrompt_edits. simpl. lia.
  - rewrite run_cons. specialize (IH (step st e)).
    unfold count_fullPrompt_edits in *. simpl.
    destruct (step_effect st e) as [[Hc Hf]|(v & ms & -> & Hc & Hb & Ha)].
    + rewrite Hc in IH. unfold flag_budget in *.
      destruct (userIsEditingFullPrompt (step st e)) eqn:E;
        destruct (userIsEditingFullPrompt st) eqn:E0;
        destruct (is_fullPrompt_edit e) eqn:Ee; simpl;
        try lia; destruct (Hf eq_refl); congruence.
    + rewrite Hc, breakdowns_app, length_app in IH. unfold flag_budget in *.
      rewrite Ha in IH. rewrite Hb. simpl in *. lia.
Qed.

(** Without a raised flag and without an edit of the full prompt, nothing
    is sent. *)
Lemma quiet_without_edit st evs :
  userIsEditingFullPrompt st = false ->
  no_fullPrompt_edit evs = true ->
  calls (run st evs) = calls st
  /\ userIsEditingFullPrompt (run st evs) = false.
Proof.
  revert st. induction evs as [|e evs IH]; intros st Hflag Hevs.
  - now split.
  - simpl in Hevs. apply andb_true_iff in Hevs. destruct Hevs as [He Hevs].
    apply negb_true_iff in He. rewrite run_cons.
    destruct (step_effect st e) as [[Hc Hf]|(v & ms & _ & _ & Hb & _)];
      [|congruence].
    assert (userIsEditingFullPrompt (step st e) = false) as Hflag'.
    { destruct (userIsEditingFullPrompt (step st e)); [|reflexivity].
      destruct (Hf eq_refl); congruence. }
    destruct (IH _ Hflag' Hevs) as [IH1 IH2]. split; congruence.
Qed.

(** *** The timer and the prompt *)

Lemma tracks_setPromptParts v st :
  timer_tracks_prompt st -> timer_tracks_prompt (setPromptParts v st).
Proof.
  unfold timer_tracks_prompt. intros H remaining captured.
  unfold setPromptParts, debounceEffect.
  destruct (same_dep _ _) eqn:E; simpl.
  - intros Hh. destruct (H _ _ Hh) as (p & Hp & Hc).
    rewrite Hp in E. destruct v as [q|]; simpl in E; [|discriminate].
    apply eqb_eq in E. exists q. split; congruence.
  - destruct v as [q|]; [|discriminate].
    destruct (truthy (fullPrompt q)); simpl; [|discriminate].
    intros [= _ <-]. now exists q.
Qed.

Lemma tracks_same st st' :
  promptParts st' = promptParts st -> handler st' = handler st ->
  timer_tracks_prompt st -> timer_tracks_prompt st'.
Proof. unfold timer_tracks_prompt. intros -> ->. auto. Qed.

Lemma tracks_step st e :
  timer_tracks_prompt st -> timer_tracks_prompt (step st e).
Proof.
  intros H. destruct e as [field value|ms|r|i r]; simpl.
  - unfold handlePromptPartChange.
    destruct (promptParts st) as [prev|] eqn:Hp; [|assumption].
    destruct (Key_eqb field KfullPrompt); apply tracks_setPromptParts;
      [|assumption].
    now apply (tracks_same st).
  - unfold elapse. destruct (handler st) as [[remaining captured]|] eqn:Hh;
      [|assumption].
    destruct (remaining <=? ms).
    + intros r c Hrc. exfalso. revert Hrc.
      unfold_handlers. simpl. case_matches; simpl; discriminate.
    + intros r c. simpl. intros [= _ <-]. now apply (H remaining).
  - unfold analysisSettled. destruct (analysisPending st); [|assumption].
    destruct r as [parsed|]; simpl.
    + apply (tracks_same (setPromptParts (Some parsed) st)); try reflexivity.
      now apply tracks_setPromptParts.
    + now apply (tracks_same st).
  - unfold reanalysisSettled.
    destruct (nth_error (reanalysisPending st) i) as [prompt|]; [|assumption].
    destruct r as [parsed|]; simpl.
    + match goal with
      | |- timer_tracks_prompt (with_isReanalyzing false ?x) =>
          apply (tracks_same x); try reflexivity
      end.
      apply tracks_setPromptParts. now apply (tracks_same st).
    + now apply (tracks_same st).
Qed.

Lemma tracks_run st evs :
  timer_tracks_prompt st -> timer_tracks_prompt (run st evs).
Proof.
  revert st. induction evs as [|e evs IH]; intros st H; [assumption|].
  rewrite run_cons. now apply IH, tracks_step.
Qed.

Lemma tracks_mounted : timer_tracks_prompt mounted.
Proof. intros r c. discriminate. Qed.

(** A timer that fires with a blank text sends nothing. *)
Lemma elapse_blank st ms :
  (forall remaining captured,
      handler st = Some (remaining, captured) -> trim captured = []) ->
  calls (elapse ms st) = calls st.
Proof.
  intros H. unfold elapse.
  destruct (handler st) as [[remaining captured]|] eqn:Hh; [|reflexivity].
  specialize (H _ _ eq_refl).
  unfold_handlers. simpl. rewrite H. simpl. now case_matches.
Qed.

End Debounce.

Section Coalescing.

(** An edit of the full prompt that changes it restarts the timer. *)
Lemma edit_restarts_timer st p v :
  promptParts st = Some p -> v <> fullPrompt p ->
  promptParts (step st (UserEdit KfullPrompt v)) = Some (set KfullPrompt v p)
  /\ handler (step st (UserEdit KfullPrompt v))
     = (if truthy v then Some (debounce_ms, v) else None)
  /\ userIsEditingFullPrompt (step st (UserEdit KfullPrompt v)) = true
  /\ initialAnalysisDone (step st (UserEdit KfullPrompt v))
     = initialAnalysisDone st
  /\ debouncedFullPrompt (step st (UserEdit KfullPrompt v))
     = debouncedFullPrompt st
  /\ calls (step st (UserEdit KfullPrompt v)) = calls st.
Proof.
  intros Hp Hv. simpl. unfold handlePromptPartChange. rewrite Hp. simpl.
  unfold setPromptParts. simpl. rewrite Hp. simpl.
  assert (eqb (fullPrompt p) v = false) as -> by (apply eqb_neq; congruence).
  unfold debounceEffect. simpl. destruct (truthy v); simpl; auto 10.
Qed.

(** Before its delay is over the timer does not fire. *)
Lemma elapse_early st ms :
  (forall remaining captured,
      handler st = Some (remaining, captured) -> ms < remaining) ->
  promptParts (step st (Elapse ms)) = promptParts st
  /\ userIsEditingFullPrompt (step st (Elapse ms)) = userIsEditingFullPrompt st
  /\ initialAnalysisDone (step st (Elapse ms)) = initialAnalysisDone st
  /\ debouncedFullPrompt (step st (Elapse ms)) = debouncedFullPrompt st
  /\ calls (step st (Elapse ms)) = calls st.
Proof.
  intros H. simpl. unfold elapse.
  destruct (handler st) as [[remaining captured]|]; [|auto].
  specialize (H _ _ eq_refl). apply N.leb_gt in H. rewrite H. simpl. auto.
Qed.

Lemma timer_after_edit (v : jsstring) ms remaining captured :
  ms < debounce_ms ->
  (if truthy v then Some (debounce_ms, v) else None) = Some (remaining, captured) ->
  ms < remaining.
Proof. destruct (truthy v); [intros ? [= <- _]; assumption | discriminate]. Qed.

(** What a pending timer becomes when time passes short of its delay. *)
Lemma elapse_handler st ms :
  (forall remaining captured,
      handler st = Some (remaining, captured) -> ms < remaining) ->
  forall remaining captured,
    handler (step st (Elapse ms)) = Some (remaining, captured) ->
    handler st = Some (remaining + ms, captured).
Proof.
  intros H remaining captured. simpl. unfold elapse.
  destruct (handler st) as [[r c]|] eqn:Hh;
    [|intros E; try rewrite Hh in E; discriminate].
  specialize (H _ _ eq_refl). pose proof H as H'.
  apply N.leb_gt in H'. rewrite H'. simpl.
  intros [= <- <-]. do 2 f_equal. lia.
Qed.

(** A re-analysis that fails leaves the prompt, the timer, the flag and
    the log as they are. *)
Lemma failure_commits_nothing st i :
  promptParts (step st (ReanalysisSettled i Failure)) = promptParts st
  /\ handler (step st (ReanalysisSettled i Failure)) = handler st
  /\ userIsEditingFullPrompt (step st (ReanalysisSettled i Failure))
     = userIsEditingFullPrompt st
  /\ initialAnalysisDone (step st (ReanalysisSettled i Failure))
     = initialAnalysisDone st
  /\ debouncedFullPrompt (step st (ReanalysisSettled i Failure))
     = debouncedFullPrompt st
  /\ calls (step st (ReanalysisSettled i Failure)) = calls st.
Proof.
  simpl. unfold reanalysisSettled.
  destruct (nth_error (reanalysisPending st) i); simpl; auto 10.
Qed.

(** Quiet events that take less time than the timer has left change
    neither the prompt nor the flag nor the log. *)
Lemma gap_waits gap : forall st,
  quiet gap = true ->
  (forall remaining captured,
      handler st = Some (remaining, captured) -> elapsed gap < remaining) ->
  promptParts (run st gap) = promptParts st
  /\ userIsEditingFullPrompt (run st gap) = userIsEditingFullPrompt st
  /\ initialAnalysisDone (run st gap) = initialAnalysisDone st
  /\ debouncedFullPrompt (run st gap) = debouncedFullPrompt st
  /\ calls (run st gap) = calls st.
Proof.
  induction gap as [|e gap IH]; intros st Hq Ht; [now repeat split|].
  unfold quiet in Hq. simpl in Hq. apply andb_true_iff in Hq.
  destruct Hq as [He Hq]. rewrite run_cons.
  destruct e as [field value|ms|r|i [parsed|]]; try discriminate He.
  - cbn [elapsed] in Ht.
    assert (forall remaining captured,
               handler st = Some (remaining, captured) -> ms < remaining) as Hms.
    { intros r c Hh. specialize (Ht _ _ Hh). lia. }
    destruct (elapse_early st ms Hms) as (H1 & H2 & H3 & H4 & H5).
    destruct (IH (step st (Elapse ms)) Hq) as (G1 & G2 & G3 & G4 & G5).
    { intros r c Hh. apply (elapse_handler st ms Hms) in Hh.
      specialize (Ht _ _ Hh). lia. }
    repeat split; congruence.
  - destruct (failure_commits_nothing st i) as (H1 & H0 & H2 & H3 & H4 & H5).
    destruct (IH (step st (ReanalysisSettled i Failure)) Hq)
      as (G1 & G2 & G3 & G4 & G5).
    { intros r c Hh. rewrite H0 in Hh. exact (Ht _ _ Hh). }
    repeat split; congruence.
Qed.

(** A timer whose delay is over fires and sends its text. *)
Lemma timer_fires st remaining v ms :
  handler st = Some (remaining, v) -> remaining <= ms ->
  userIsEditingFullPrompt st = true -> initialAnalysisDone st = true ->
  trim v <> [] -> v <> debouncedFullPrompt st ->
  calls (step st (Elapse ms)) = calls st ++ [BreakdownPrompt v]
  /\ userIsEditingFullPrompt (step st (Elapse ms)) = false
  /\ handler (step st (Elapse ms)) = None.
Proof.
  intros Hh Hle Hf Hi Hv Hd. simpl. unfold elapse. rewrite Hh.
  apply N.leb_le in Hle. rewrite Hle.
  assert (truthy v = true) as Ht.
  { apply truthy_true. intros ->. now apply Hv. }
  unfold setDebouncedFullPrompt. simpl.
  assert (eqb (debouncedFullPrompt st) v = false) as ->
    by (apply eqb_neq; congruence).
  unfold triggerEffect. simpl. rewrite Ht, Hf, Hi. simpl.
  unfold reAnalyzePrompt. simpl.
  apply truthy_true in Hv. rewrite Hv. simpl. now repeat split.
Qed.

(** With the flag up and a timer pending for a text that is not blank and
    not the debounced one, quiet events send that text once the time they
    take reaches what the timer has left, and nothing before. *)
Lemma gap_fires gap : forall st remaining v,
  quiet gap = true ->
  handler st = Some (remaining, v) -> 0 < remaining ->
  userIsEditingFullPrompt st = true -> initialAnalysisDone st = true ->
  trim v <> [] -> v <> debouncedFullPrompt st ->
  calls (run st gap)
  = calls st ++ (if remaining <=? elapsed gap then [BreakdownPrompt v] else [])
  /\ ((remaining <=? elapsed gap) = true ->
      userIsEditingFullPrompt (run st gap) = false).
Proof.
  induction gap as [|e gap IH]; intros st remaining v Hq Hh Hr Hf Hi Hv Hd.
  - simpl. assert ((remaining <=? 0) = false) as -> by (apply N.leb_gt; lia).
    split; [now rewrite app_nil_r | discriminate].
  - unfold quiet in Hq. simpl in Hq. apply andb_true_iff in Hq.
    destruct Hq as [He Hq]. rewrite run_cons.
    destruct e as [field value|ms|r|i [parsed|]]; try discriminate He.
    + cbn [elapsed]. destruct (N.leb_spec remaining ms) as [Hle|Hgt].
      * assert ((remaining <=? ms + elapsed gap) = true) as ->
          by (apply N.leb_le; lia).
        destruct (timer_fires st remaining v ms Hh Hle Hf Hi Hv Hd)
          as (Hc & Hflag & Hnone).
        destruct (gap_waits gap (step st (Elapse ms)) Hq)
          as (_ & G2 & _ & _ & G5).
        { intros r c Hrc. rewrite Hnone in Hrc. discriminate. }
        split; [congruence | intros _; congruence].
      * assert (forall r c, handler st = Some (r, c) -> ms < r) as Hms.
        { intros r c Hrc. rewrite Hh in Hrc. now injection Hrc as <- _. }
        destruct (elapse_early st ms Hms) as (_ & H2 & H3 & H4 & H5).
        assert (handler (step st (Elapse ms)) = Some (remaining - ms, v)) as Hh'.
        { simpl. unfold elapse. rewrite Hh.
          assert ((remaining <=? ms) = false) as -> by (apply N.leb_gt; lia).
          reflexivity. }
        destruct (IH (step st (Elapse ms)) (remaining - ms) v Hq Hh')
          as [G1 G2]; try congruence; try lia.
        assert ((remaining - ms <=? elapsed gap)
                = (remaining <=? ms + elapsed gap)) as E.
        { destruct (N.leb_spec (remaining - ms) (elapsed gap));
            destruct (N.leb_spec remaining (ms + elapsed gap)); try reflexivity;
            lia. }
        rewrite E in *. split; [congruence | assumption].
    + cbn [elapsed].
      destruct (failure_commits_nothing st i) as (_ & H0 & H2 & H3 & H4 & H5).
      destruct (IH (step st (ReanalysisSettled i Failure)) remaining v Hq)
        as [G1 G2]; try congruence.
      split; [congruence | assumption].
Qed.

(** A burst of quick edits sends nothing and leaves the last text. *)
Lemma burst_is_quiet burst : forall st p,
  promptParts st = Some p ->
  quick_changes (fullPrompt p) burst ->
  exists p',
    promptParts (run st (burst_events burst)) = Some p'
    /\ fullPrompt p' = last_text (fullPrompt p) burst
    /\ initialAnalysisDone (run st (burst_events burst))
       = initialAnalysisDone st
    /\ debouncedFullPrompt (run st (burst_events burst))
       = debouncedFullPrompt st
    /\ calls (run st (burst_events burst)) = calls st.
Proof.
  induction burst as [|[v gap] burst IH]; intros st p Hp Hq.
  - exists p. now repeat split.
  - destruct Hq as (Hv & Hquiet & Hd & Hq).
    change (burst_events ((v, gap) :: burst))
      with ((UserEdit KfullPrompt v :: gap) ++ burst_events burst).
    rewrite run_app, run_cons.
    destruct (edit_restarts_timer st p v Hp Hv)
      as (Hp1 & Hh1 & _ & Hi1 & Hb1 & Hc1).
    destruct (gap_waits gap (step st (UserEdit KfullPrompt v)) Hquiet)
      as (Hp2 & _ & Hi2 & Hb2 & Hc2).
    { intros r c. rewrite Hh1. now apply timer_after_edit. }
    rewrite Hp1 in Hp2.
    destruct (IH (run (step st (UserEdit KfullPrompt v)) gap)
                (set KfullPrompt v p) Hp2 Hq)
      as (p' & H1 & H2 & H3 & H4 & H5).
    exists p'. simpl in *. repeat split; congruence.
Qed.

(** After a burst, a last edit to a text that is not blank and is not the
    debounced one is sent once the delay is over. *)
Lemma burst_then_edit st p burst v gap :
  promptParts st = Some p ->
  initialAnalysisDone st = true ->
  quick_changes (fullPrompt p) burst ->
  v <> last_text (fullPrompt p) burst ->
  quiet gap = true ->
  trim v <> [] ->
  v <> debouncedFullPrompt st ->
  calls (run st (burst_events burst ++ UserEdit KfullPrompt v :: gap))
  = calls st
    ++ (if debounce_ms <=? elapsed gap then [BreakdownPrompt v] else []).
Proof.
  intros Hp Hi Hq Hv Hquiet Hblank Hdeb. rewrite run_app, run_cons.
  destruct (burst_is_quiet burst st p Hp Hq)
    as (p' & Hp' & Hf' & Hi' & Hb' & Hc').
  set (st' := run st (burst_events burst)) in *.
  rewrite <- Hf' in Hv.
  destruct (edit_restarts_timer st' p' v Hp' Hv)
    as (_ & Hh & Hflag & Hi1 & Hb1 & Hc1).
  assert (truthy v = true) as Ht.
  { apply truthy_true. intros ->. now apply Hblank. }
  rewrite Ht in Hh.
  destruct (gap_fires gap (step st' (UserEdit KfullPrompt v)) debounce_ms v
              Hquiet Hh)
    as [Hcalls _]; try congruence.
  reflexivity.
Qed.

End Coalescing.

(** C3, as the code has it.  Once the first analysis is done, take three
    edits of the full prompt that each change the text, each less than
    500 ms after the one before, where the last text is not blank and is not
    the text the debounce last let through, and let nothing be committed
    meanwhile and in the rest that follows: no other edit, no response of
    the Gateway but failures.  Then nothing is sent before 500 ms have passed
    since the last edit, and then exactly one re-analysis request is sent,
    for the text of the last edit. *)
Theorem debounce_coalesces_three_edits st p v1 v2 v3 gap1 gap2 gap3 :
  promptParts st = Some p ->
  initialAnalysisDone st = true ->
  v1 <> fullPrompt p -> v2 <> v1 -> v3 <> v2 ->
  quiet gap1 = true -> quiet gap2 = true -> quiet gap3 = true ->
  elapsed gap1 < debounce_ms -> elapsed gap2 < debounce_ms ->
  trim v3 <> [] ->
  v3 <> debouncedFullPrompt st ->
  calls (run st (three_edits_among v1 v2 v3 gap1 gap2 gap3))
  = calls st
    ++ (if debounce_ms <=? elapsed gap3 then [BreakdownPrompt v3] else []).
Proof.
  intros Hp Hdone H1 H2 H3 Hq1 Hq2 Hq3 Hd1 Hd2 Hblank Hdeb.
  change (three_edits_among v1 v2 v3 gap1 gap2 gap3)
    with (UserEdit KfullPrompt v1 :: gap1
          ++ UserEdit KfullPrompt v2 :: gap2
          ++ UserEdit KfullPrompt v3 :: gap3).
  replace (UserEdit KfullPrompt v1 :: gap1
           ++ UserEdit KfullPrompt v2 :: gap2
           ++ UserEdit KfullPrompt v3 :: gap3)
    with (burst_events [(v1, gap1); (v2, gap2)]
          ++ UserEdit KfullPrompt v3 :: gap3).
  - apply (burst_then_edit st p [(v1, gap1); (v2, gap2)]); try assumption.
    simpl. auto 10.
  - unfold burst_events. simpl. rewrite app_nil_r.
    now rewrite <- app_assoc.
Qed.

Lemma debounce_coalesces_three_edits_witness :
  let p := mkParts (str "a cat") [] [] [] [] [] [] (str "a cat, sitting") in
  let st := run mounted [AnalysisSettled (Json p); Elapse 500;
                         UserEdit KfullPrompt (str "a cat"); Elapse 500] in
  let gap1 := [Elapse 120] in
  let gap2 := [Elapse 200; ReanalysisSettled 0 Failure; Elapse 299] in
  let gap3 := [Elapse 300; Elapse 200] in
  (promptParts st = Some (set KfullPrompt (str "a cat") p)
   /\ initialAnalysisDone st = true
   /\ str "a" <> str "a cat" /\ str "a d" <> str "a" /\ str "a dog" <> str "a d"
   /\ quiet gap1 = true /\ quiet gap2 = true /\ quiet gap3 = true
   /\ elapsed gap1 < debounce_ms /\ elapsed gap2 < debounce_ms
   /\ trim (str "a dog") <> [] /\ str "a dog" <> debouncedFullPrompt st)
  /\ calls st = [AnalyzeImage; BreakdownPrompt (str "a cat")]
  /\ calls (run st (three_edits_among (str "a") (str "a d") (str "a dog")
                      gap1 gap2 gap3))
     = [AnalyzeImage; BreakdownPrompt (str "a cat");
        BreakdownPrompt (str "a dog")].
Proof.
  intros p st gap1 gap2 gap3.
  assert (promptParts st = Some (set KfullPrompt (str "a cat") p)) as H1
    by reflexivity.
  assert (initialAnalysisDone st = true) as H2 by reflexivity.
  assert (str "a" <> str "a cat") as H3 by discriminate.
  assert (str "a d" <> str "a") as H4 by discriminate.
  assert (str "a dog" <> str "a d") as H5 by discriminate.
  assert (quiet gap1 = true) as Q1 by reflexivity.
  assert (quiet gap2 = true) as Q2 by reflexivity.
  assert (quiet gap3 = true) as Q3 by reflexivity.
  assert (elapsed gap1 < debounce_ms) as H6 by reflexivity.
  assert (elapsed gap2 < debounce_ms) as H7 by reflexivity.
  assert (trim (str "a dog") <> []) as H8 by (vm_compute; discriminate).
  assert (str "a dog" <> debouncedFullPrompt st) as H9
    by (vm_compute; discriminate).
  split.
  - exact (conj H1 (conj H2 (conj H3 (conj H4 (conj H5 (conj Q1 (conj Q2
            (conj Q3 (conj H6 (conj H7 (conj H8 H9))))))))))).
  - split; [reflexivity|].
    exact (debounce_coalesces_three_edits st _ (str "a") (str "a d")
             (str "a dog") gap1 gap2 gap3 H1 H2 H3 H4 H5 Q1 Q2 Q3 H6 H7 H8 H9).
Defined.

(** C3 as the spec words it fails in four ways: when the last edit leaves
    a blank text nothing is sent; when the last edit brings back the text
    the debounce last let through nothing is sent; an edit that commits
    the text already there does not restart the timer, so that two requests
    go out; and when the response to an earlier request is committed within
    500 ms of the last edit, it takes the place of the text of that edit,
    for which nothing is sent. *)
Lemma three_edits_not_always_one_request :
  let p := mkParts (str "a cat") [] [] [] [] [] [] (str "a cat") in
  let st := run mounted [AnalysisSettled (Json p); Elapse 500] in
  let st' := run st [UserEdit KfullPrompt (str "A"); Elapse 500] in
  let echoed := mkParts (str "A") [] [] [] [] [] [] (str "A") in
  promptParts st = Some p /\ initialAnalysisDone st = true
  /\ calls st = [AnalyzeImage]
  /\ calls (run st (three_edits (str "a ca") (str "a") [] 100 100 500))
     = [AnalyzeImage]
  /\ calls (run st (three_edits (str "a ca") (str "a") [] 100 100 500))
     <> calls st ++ [BreakdownPrompt []]
  /\ calls (run st (three_edits (str "a ca") (str "a") (str "  ") 100 100 500))
     = [AnalyzeImage]
  /\ calls (run st (three_edits (str "a ca") (str "a") (str "  ") 100 100 500))
     <> calls st ++ [BreakdownPrompt (str "  ")]
  /\ calls (run st (three_edits (str "a cat!") (str "a cat!!") (str "a cat")
                      100 100 500))
     = [AnalyzeImage]
  /\ calls (run st (three_edits (str "a cat!") (str "a cat!!") (str "a cat")
                      100 100 500))
     <> calls st ++ [BreakdownPrompt (str "a cat")]
  /\ calls (run st (three_edits (str "a dog") (str "a dog") (str "a fox")
                      300 300 500))
     = [AnalyzeImage; BreakdownPrompt (str "a dog");
        BreakdownPrompt (str "a fox")]
  /\ calls (run st (three_edits (str "a dog") (str "a dog") (str "a fox")
                      300 300 500))
     <> calls st ++ [BreakdownPrompt (str "a fox")]
  /\ initialAnalysisDone st' = true
  /\ fullPrompt_dep (promptParts st') = Some (str "A")
  /\ debouncedFullPrompt st' = str "A"
  /\ calls st' = [AnalyzeImage; BreakdownPrompt (str "A")]
  /\ calls (run st' (three_edits (str "AB") (str "ABC") (str "ABCD") 100 100 100
                     ++ [ReanalysisSettled 0 (Json echoed); Elapse 500]))
     = [AnalyzeImage; BreakdownPrompt (str "A")]
  /\ calls (run st' (three_edits (str "AB") (str "ABC") (str "ABCD") 100 100 100
                     ++ [ReanalysisSettled 0 (Json echoed); Elapse 500]))
     <> calls st' ++ [BreakdownPrompt (str "ABCD")]
  /\ fullPrompt_dep
       (promptParts
          (run st' (three_edits (str "AB") (str "ABC") (str "ABCD") 100 100 100
                    ++ [ReanalysisSettled 0 (Json echoed); Elapse 500])))
     = Some (str "A").
Proof.
  intros p st st' echoed.
  repeat match goal with
         | |- _ /\ _ => split
         | |- _ = _ => vm_compute; reflexivity
         | |- _ <> _ => vm_compute; discriminate
         end.
Qed.

(** C4, as the code has it.  Settling a re-analysis sends nothing by
    itself and leaves the dirty flag as it is; a step raises the flag only
    if it is an edit of the full prompt; a step that sends a request found
    the flag up and leaves it down; so when a re-analysis is committed with
    the flag down, nothing is sent until the user edits the full prompt
    again, and over any run the re-analysis requests are at most the edits
    of the full prompt (and one more if the flag was up at the start): there
    is no loop. *)
Theorem reanalysis_commit_starts_no_reanalysis :
  (forall st i r,
      calls (step st (ReanalysisSettled i r)) = calls st
      /\ userIsEditingFullPrompt (step st (ReanalysisSettled i r))
         = userIsEditingFullPrompt st)
  /\ (forall st e,
         userIsEditingFullPrompt st = false ->
         userIsEditingFullPrompt (step st e) = true ->
         is_fullPrompt_edit e = true)
  /\ (forall st e,
         calls (step st e) <> calls st ->
         userIsEditingFullPrompt st = true
         /\ userIsEditingFullPrompt (step st e) = false)
  /\ (forall st i parsed evs,
         userIsEditingFullPrompt st = false ->
         no_fullPrompt_edit evs = true ->
         calls (run st (ReanalysisSettled i (Json parsed) :: evs)) = calls st)
  /\ (forall st evs,
         (length (breakdowns (calls (run st evs)))
          <= length (breakdowns (calls st)) + flag_budget st
             + count_fullPrompt_edits evs)%nat).
Proof.
  split; [|split; [|split; [|split]]].
  - intros st i r. unfold_handlers. simpl. now case_matches.
  - intros st e H0 H1.
    destruct (step_effect st e) as [[_ Hf]|(v & ms & _ & _ & _ & Ha)];
      [|congruence].
    destruct (Hf H1); congruence.
  - intros st e H.
    destruct (step_effect st e) as [[Hc _]|(v & ms & _ & _ & Hb & Ha)];
      [contradiction | now split].
  - intros st i parsed evs Hflag Hevs.
    now apply (quiet_without_edit st (ReanalysisSettled i (Json parsed) :: evs)).
  - intros st evs. pose proof (reanalysis_budget st evs). lia.
Qed.

Lemma reanalysis_commit_starts_no_reanalysis_witness :
  let p := mkParts (str "a cat") [] [] [] [] [] [] (str "a cat, sitting") in
  let echoed := mkParts (str "a dog") [] [] [] [] [] [] (str "A dog.") in
  let st := run mounted [AnalysisSettled (Json p);
                         UserEdit KfullPrompt (str "a dog");
                         Elapse 500] in
  let evs := [Elapse 500; UserEdit Kscene (str "a fox"); Elapse 2000] in
  (userIsEditingFullPrompt st = false /\ no_fullPrompt_edit evs = true)
  /\ calls (run st (ReanalysisSettled 0 (Json echoed) :: evs))
     = [AnalyzeImage; BreakdownPrompt (str "a dog")].
Proof.
  intros p echoed st evs.
  assert (userIsEditingFullPrompt st = false) as H1 by reflexivity.
  assert (no_fullPrompt_edit evs = true) as H2 by reflexivity.
  split; [exact (conj H1 H2)|].
  exact (proj1 (proj2 (proj2 (proj2 reanalysis_commit_starts_no_reanalysis)))
           st 0%nat echoed evs H1 H2).
Defined.

(** C4 as the spec words it fails when the flag is up at the commit.
    Two re-analyses are awaited, of "A" and of "AB"; the user has typed on
    and come back to "AB", the debounced text, so that the flag is up and
    no timer is pending: left alone, the component sends nothing.  The
    response to "A" is then committed: it puts "A" in the place of the
    text, the timer starts again with it, and 500 ms later a re-analysis of
    "A" is sent once more.  So it is too when the user is still typing. *)
Lemma commit_can_start_reanalysis :
  let p := mkParts (str "a cat") [] [] [] [] [] [] (str "a cat") in
  let echoed := mkParts (str "A") [] [] [] [] [] [] (str "A") in
  let sent := [AnalysisSettled (Json p); Elapse 500;
               UserEdit KfullPrompt (str "A"); Elapse 500;
               UserEdit KfullPrompt (str "AB"); Elapse 500] in
  let before := run mounted (sent ++ [UserEdit KfullPrompt (str "ABC");
                                      Elapse 100;
                                      UserEdit KfullPrompt (str "AB");
                                      Elapse 500]) in
  let typing := run mounted (sent ++ [UserEdit KfullPrompt (str "ABC");
                                      Elapse 100]) in
  calls before
  = [AnalyzeImage; BreakdownPrompt (str "A"); BreakdownPrompt (str "AB")]
  /\ nth_error (reanalysisPending before) 0 = Some (str "A")
  /\ userIsEditingFullPrompt before = true
  /\ handler before = None
  /\ fullPrompt_dep (promptParts before) = Some (str "AB")
  /\ calls (run before [Elapse 500; Elapse 5000]) = calls before
  /\ handler (step before (ReanalysisSettled 0 (Json echoed)))
     = Some (500, str "A")
  /\ calls (run before [ReanalysisSettled 0 (Json echoed); Elapse 500])
     = calls before ++ [BreakdownPrompt (str "A")]
  /\ calls (run before [ReanalysisSettled 0 (Json echoed); Elapse 500])
     <> calls before
  /\ calls typing = calls before
  /\ userIsEditingFullPrompt typing = true
  /\ calls (run typing [ReanalysisSettled 0 (Json echoed); Elapse 500])
     = calls typing ++ [BreakdownPrompt (str "A")].
Proof.
  intros p echoed sent before typing.
  repeat match goal with
         | |- _ /\ _ => split
         | |- _ = _ => vm_compute; reflexivity
         | |- _ <> _ => vm_compute; discriminate
         end.
Qed.

(** C10.  When the full prompt is empty or blank (or there is no prompt),
    the time that passes sends nothing, whether a timer fires or not: the
    effect asks for a debounced text that is not empty, and
    [reAnalyzePrompt] returns at once for a text that trims to the empty
    string. *)
Theorem blank_full_prompt_sends_nothing evs ms :
  (forall p, promptParts (run mounted evs) = Some p ->
             trim (fullPrompt p) = []) ->
  calls (step (run mounted evs) (Elapse ms)) = calls (run mounted evs)
  /\ (forall st prompt, trim prompt = [] -> reAnalyzePrompt prompt st = st)
  /\ (forall st, debouncedFullPrompt st = [] -> triggerEffect st = st).
Proof.
  intros H. split; [|split].
  - simpl. apply elapse_blank. intros remaining captured Hh.
    destruct (tracks_run mounted evs tracks_mounted _ _ Hh) as (p & Hp & <-).
    now apply H.
  - intros st prompt Hp. unfold reAnalyzePrompt. now rewrite Hp.
  - intros st Hd. unfold triggerEffect. now rewrite Hd.
Qed.

Lemma blank_full_prompt_sends_nothing_witness :
  let p := mkParts (str "a cat") [] [] [] [] [] [] (str "a cat") in
  let evs := [AnalysisSettled (Json p); Elapse 500;
              UserEdit KfullPrompt (str "a"); Elapse 200;
              UserEdit KfullPrompt (str " ")] in
  (forall q, promptParts (run mounted evs) = Some q ->
             trim (fullPrompt q) = [])
  /\ userIsEditingFullPrompt (run mounted evs) = true
  /\ handler (run mounted evs) = Some (500, str " ")
  /\ calls (step (run mounted evs) (Elapse 500)) = [AnalyzeImage].
Proof.
  intros p evs.
  assert (forall q, promptParts (run mounted evs) = Some q ->
                    trim (fullPrompt q) = []) as H1.
  { intros q Hq. vm_compute in Hq. injection Hq as <-. reflexivity. }
  split; [exact H1|]. split; [reflexivity|]. split; [reflexivity|].
  exact (proj1 (blank_full_prompt_sends_nothing evs 500 H1)).
Defined.

(** ** The chat transcript *)

Section Chat.

Lemma chat_turn st t :
  ChatBot.chat st = true -> ChatBot.isLoading st = false ->
  trim (fst t) <> [] ->
  ChatBot.run st (ChatBot.turn t)
  = ChatBot.mkState true (ChatBot.messages st ++ ChatBot.exchange t)
      [] false (ChatBot.sent st ++ [fst t]).
Proof.
  intros Hc Hl Ht. apply truthy_true in Ht.
  unfold ChatBot.turn, ChatBot.run. simpl.
  unfold ChatBot.handleSend, ChatBot.setInput. simpl.
  rewrite Ht, Hc, Hl. simpl.
  unfold ChatBot.settled. simpl. now rewrite <- app_assoc.
Qed.

Lemma chat_turns turns : forall st,
  ChatBot.chat st = true -> ChatBot.isLoading st = false ->
  Forall (fun t => trim (fst t) <> []) turns ->
  ChatBot.messages (ChatBot.run st (flat_map ChatBot.turn turns))
  = ChatBot.messages st ++ flat_map ChatBot.exchange turns
  /\ ChatBot.sent (ChatBot.run st (flat_map ChatBot.turn turns))
     = ChatBot.sent st ++ map fst turns
  /\ ChatBot.isLoading (ChatBot.run st (flat_map ChatBot.turn turns)) = false.
Proof.
  induction turns as [|t turns IH]; intros st Hc Hl Hall.
  - simpl. now rewrite !app_nil_r.
  - inversion Hall as [|? ? Ht Hrest]; subst.
    change (flat_map ChatBot.turn (t :: turns))
      with (ChatBot.turn t ++ flat_map ChatBot.turn turns).
    unfold ChatBot.run at 1 2 3. rewrite fold_left_app.
    fold (ChatBot.run st (ChatBot.turn t)).
    rewrite (chat_turn st t Hc Hl Ht).
    match goal with
    | |- context [fold_left ChatBot.step _ ?s] =>
        destruct (IH s eq_refl eq_refl Hrest) as (Hm & Hs & Hi)
    end.
    unfold ChatBot.run in Hm, Hs, Hi. rewrite Hm, Hs, Hi. simpl.
    now rewrite <- !app_assoc.
Qed.

End Chat.

(** C8.  For any number N of submissions of non-blank text, each sent once
    the turn before has settled, the transcript is the greeting followed by
    the N pairs of the user's message and the model's message, in the order
    of submission, the model's message being the Gateway's response or the
    fixed fallback: 2N+1 messages. *)
Theorem chat_transcript_order (turns : list (jsstring * ChatBot.Reply)) :
  Forall (fun t => trim (fst t) <> []) turns ->
  ChatBot.messages
    (ChatBot.run (ChatBot.mount ChatBot.init) (flat_map ChatBot.turn turns))
  = ChatBot.greeting :: flat_map ChatBot.exchange turns
  /\ length (ChatBot.messages
               (ChatBot.run (ChatBot.mount ChatBot.init)
                  (flat_map ChatBot.turn turns)))
     = (2 * length turns + 1)%nat
  /\ ChatBot.sent
       (ChatBot.run (ChatBot.mount ChatBot.init) (flat_map ChatBot.turn turns))
     = map fst turns.
Proof.
  intros Hall.
  destruct (chat_turns turns (ChatBot.mount ChatBot.init) eq_refl eq_refl Hall)
    as (Hm & Hs & _).
  rewrite Hm, Hs. simpl. repeat split.
  f_equal. clear. induction turns as [|t turns IH]; simpl; lia.
Qed.

Lemma chat_transcript_order_witness :
  let turns := [(str "hello", ChatBot.Answer (str "Hi!"));
                (str " what is a prompt? ", ChatBot.Thrown)] in
  Forall (fun t => trim (fst t) <> []) turns
  /\ ChatBot.messages
       (ChatBot.run (ChatBot.mount ChatBot.init) (flat_map ChatBot.turn turns))
     = [ChatBot.greeting;
        ChatBot.mkMessage ChatBot.user (str "hello");
        ChatBot.mkMessage ChatBot.model (str "Hi!");
        ChatBot.mkMessage ChatBot.user (str " what is a prompt? ");
        ChatBot.fallback].
Proof.
  intros turns.
  assert (Forall (fun t => trim (fst t) <> []) turns) as H.
  { repeat constructor; vm_compute; discriminate. }
  split; [exact H|].
  exact (proj1 (chat_transcript_order turns H)).
Defined.

(* ================================================================== *)
(** * Further properties of the code *)

(** A property kept by every step is kept by every run. *)
Lemma fold_left_invariant {S E : Type} (f : S -> E -> S) (P : S -> Prop) :
  (forall s e, P s -> P (f s e)) ->
  forall evs s, P s -> P (fold_left f evs s).
Proof.
  intros Hstep evs. induction evs as [|e evs IH]; intros s Hs; simpl; auto.
Qed.

(** ** What the normalisation keeps and what it leaves *)

Section NormalForm.

Lemma content_app (a b : jsstring) : content (a ++ b) = content a ++ content b.
Proof. apply filter_app. Qed.

Lemma content_trimStart (s : jsstring) : content (trimStart s) = content s.
Proof.
  induction s as [|c r IH]; [reflexivity|]. cbn [trimStart].
  destruct (is_ws c) eqn:E; [|reflexivity].
  rewrite IH. unfold content at 2. cbn [filter]. now rewrite E.
Qed.

Lemma content_rev (s : jsstring) : content (rev s) = rev (content s).
Proof.
  induction s as [|c r IH]; [reflexivity|]. simpl.
  rewrite content_app, IH. unfold content at 2 3. simpl.
  destruct (negb (is_ws c || (c =? comma))); simpl; [reflexivity|].
  now rewrite app_nil_r.
Qed.

Lemma content_trim (s : jsstring) : content (trim s) = content s.
Proof.
  unfold trim, trimEnd.
  now rewrite content_rev, content_trimStart, content_rev, rev_involutive,
    content_trimStart.
Qed.

Lemma content_split (s : jsstring) :
  concat (map content (split comma s)) = content s.
Proof.
  induction s as [|c r IH]; [reflexivity|]. cbn [split].
  destruct (N.eqb_spec c comma) as [->|Hc].
  - simpl. now rewrite IH.
  - destruct (split comma r) as [|h t] eqn:E; [now apply split_not_nil in E|].
    cbn [map concat] in *.
    change (content (c :: r))
      with (if negb (is_ws c || (c =? comma)) then c :: content r
            else content r).
    change (content (c :: h))
      with (if negb (is_ws c || (c =? comma)) then c :: content h
            else content h).
    rewrite <- IH.
    destruct (negb (is_ws c || (c =? comma))); reflexivity.
Qed.

Lemma content_join (ps : list jsstring) :
  content (join (str ", ") ps) = concat (map content ps).
Proof.
  induction ps as [|p qs IH]; [reflexivity|].
  destruct qs as [|q qs].
  - simpl. now rewrite app_nil_r.
  - rewrite join_cons2, !content_app, IH. reflexivity.
Qed.

Lemma content_truthy (l : list jsstring) :
  concat (map content (filter truthy l)) = concat (map content l).
Proof.
  induction l as [|x l IH]; [reflexivity|]. simpl.
  destruct x; simpl; [exact IH | now rewrite IH].
Qed.

Lemma content_map_trim (l : list jsstring) :
  concat (map content (map trim l)) = concat (map content l).
Proof.
  induction l as [|x l IH]; [reflexivity|]. simpl.
  now rewrite content_trim, IH.
Qed.

(** A string that begins and ends with a code unit that is not white
    space is its own trim. *)
Lemma trim_fixed (s : jsstring) c r d r' :
  s = c :: r -> is_ws c = false -> s = r' ++ [d] -> is_ws d = false ->
  trim s = s.
Proof.
  intros Hs Hc Hs' Hd. unfold trim.
  assert (trimStart s = s) as -> by (rewrite Hs; simpl; now rewrite Hc).
  unfold trimEnd. rewrite Hs' at 1. rewrite rev_app_distr. simpl.
  rewrite Hd. change (d :: rev r') with (rev [d] ++ rev r').
  now rewrite <- rev_app_distr, rev_involutive.
Qed.

Lemma piece_ends (p : jsstring) :
  piece p ->
  (exists c r, p = c :: r /\ is_ws c = false)
  /\ (exists d r', p = r' ++ [d] /\ is_ws d = false).
Proof.
  intros (Hne & _ & Htrim). unfold trim in Htrim.
  destruct (trimStart p) as [|c t] eqn:Et.
  { exfalso. apply Hne. now rewrite <- Htrim. }
  pose proof (trimStart_head _ _ _ Et) as Hc.
  split.
  - rewrite trimEnd_cons in Htrim by assumption. now exists c, (trimEnd t).
  - unfold trimEnd in Htrim.
    destruct (trimStart (rev (c :: t))) as [|d u] eqn:Eu.
    { exfalso. apply Hne. now rewrite <- Htrim. }
    exists d, (rev u). split; [now rewrite <- Htrim|].
    exact (trimStart_head _ _ _ Eu).
Qed.

Lemma join_pieces_ends (ps : list jsstring) :
  ps <> [] -> Forall piece ps ->
  (exists c r, join (str ", ") ps = c :: r /\ is_ws c = false)
  /\ (exists d r', join (str ", ") ps = r' ++ [d] /\ is_ws d = false).
Proof.
  induction ps as [|p qs IH]; [congruence|]. intros _ Hall.
  inversion Hall as [|? ? Hp Hqs]; subst.
  destruct (piece_ends p Hp) as [(c & r & Hc & Hwc) (d & r' & Hd & Hwd)].
  destruct qs as [|q qs].
  - simpl. split; [now exists c, r | now exists d, r'].
  - destruct (IH ltac:(discriminate) Hqs) as [_ (d' & r'' & Hd' & Hwd')].
    rewrite join_cons2. split.
    + exists c, (r ++ str ", " ++ join (str ", ") (q :: qs)).
      now rewrite Hc.
    + exists d', (p ++ str ", " ++ r''). rewrite Hd'.
      now rewrite <- !app_assoc.
Qed.

Lemma normalize_keeps_content_aux (s : jsstring) :
  content (normalize s) = content s.
Proof.
  unfold normalize.
  now rewrite content_join, content_truthy, content_map_trim, content_split.
Qed.

End NormalForm.

(** The normalisation changes commas and white space only: the other code
    units of a string are those of its normal form, in the same order. *)
Theorem normalize_keeps_content (s : jsstring) :
  content (normalize s) = content s.
Proof.
  unfold normalize.
  now rewrite content_join, content_truthy, content_map_trim, content_split.
Qed.

(** A normal form has no white space at either end, and its segments are
    the trimmed segments of the string that are not empty. *)
Theorem normalize_is_trimmed (s : jsstring) :
  trim (normalize s) = normalize s
  /\ filter truthy (map trim (split comma (normalize s)))
     = filter truthy (map trim (split comma s))
  /\ Forall piece (filter truthy (map trim (split comma s))).
Proof.
  split; [|split].
  - unfold normalize.
    destruct (filter truthy (map trim (split comma s))) as [|p ps] eqn:E;
      [reflexivity|].
    pose proof (pieces_of_split s) as Hall. rewrite E in Hall.
    destruct (join_pieces_ends (p :: ps) ltac:(discriminate) Hall)
      as [(c & r & Hc & Hwc) (d & r' & Hd & Hwd)].
    exact (trim_fixed _ _ _ _ _ Hc Hwc Hd Hwd).
  - unfold normalize. apply pieces_of_join, pieces_of_split.
  - apply pieces_of_split.
Qed.

(** ** Data URLs in the Gateway *)

(** [fileToGenerativePart] takes what stands between the first comma and
    the next: a string without a comma has no data ([undefined]), and what
    follows a second comma is dropped. *)
Theorem fileToGenerativePart_data (base64 mime : jsstring) :
  Gateway.mimeType (Gateway.fileToGenerativePart base64 mime) = mime
  /\ (~ In comma base64 ->
      Gateway.data (Gateway.fileToGenerativePart base64 mime) = None)
  /\ (forall header rest,
         base64 = header ++ comma :: rest -> ~ In comma header ->
         exists payload more,
           split comma rest = payload :: more
           /\ Gateway.data (Gateway.fileToGenerativePart base64 mime)
              = Some payload).
Proof.
  split; [reflexivity|]. split.
  - intros H. unfold Gateway.fileToGenerativePart. simpl.
    now rewrite split_no_sep.
  - intros header rest -> H. unfold Gateway.fileToGenerativePart. simpl.
    rewrite split_app_sep, (split_no_sep comma header) by assumption.
    destruct (split comma rest) as [|payload more] eqn:E;
      [now apply split_not_nil in E|].
    now exists payload, more.
Qed.

Lemma fileToGenerativePart_data_witness :
  (~ In comma (str "data:image/png;base64")
   /\ str "data:image/png;base64,iVBOR,w0KGgo"
      = str "data:image/png;base64" ++ comma :: str "iVBOR,w0KGgo")
  /\ Gateway.data (Gateway.fileToGenerativePart (str "data:image/png;base64")
                     (str "image/png")) = None
  /\ Gateway.data (Gateway.fileToGenerativePart
                     (str "data:image/png;base64,iVBOR,w0KGgo")
                     (str "image/png")) = Some (str "iVBOR").
Proof.
  assert (~ In comma (str "data:image/png;base64")) as H1
    by (vm_compute; intuition discriminate).
  assert (str "data:image/png;base64,iVBOR,w0KGgo"
          = str "data:image/png;base64" ++ comma :: str "iVBOR,w0KGgo") as H2
    by reflexivity.
  split; [exact (conj H1 H2)|]. split.
  - exact (proj1 (proj2 (fileToGenerativePart_data
                           (str "data:image/png;base64") (str "image/png")))
             H1).
  - destruct (proj2 (proj2 (fileToGenerativePart_data
                              (str "data:image/png;base64,iVBOR,w0KGgo")
                              (str "image/png")))
                _ _ H2 H1) as (payload & more & Hs & Hd).
    rewrite Hd. vm_compute in Hs. now injection Hs as <- _.
Defined.

(** [editImageWithPrompt] answers with the first part that has inline data,
    as a data URL of its MIME type, whatever parts come before it without
    inline data; it throws exactly when the request fails or no part has
    inline data. *)
Theorem editImageWithPrompt_first_inline (r : Gateway.ContentResponse) :
  (forall texts inlineData rest,
      r = Gateway.Parts (map (fun _ : unit => None) texts
                         ++ Some inlineData :: rest) ->
      Gateway.editImageWithPrompt r
      = Some (str "data:" ++ Gateway.part_mimeType inlineData
              ++ str ";base64," ++ Gateway.part_data inlineData))
  /\ (Gateway.editImageWithPrompt r = None <->
      r = Gateway.ContentRejected
      \/ exists parts, r = Gateway.Parts parts
                       /\ Forall (fun p => p = None) parts).
Proof.
  split.
  - intros texts inlineData rest ->. simpl.
    induction texts as [|t texts IH]; [reflexivity | exact IH].
  - destruct r as [parts|]; simpl.
    + split.
      * intros H. right. exists parts. split; [reflexivity|].
        induction parts as [|[i|] parts IH]; simpl in H;
          [constructor | discriminate | constructor; auto].
      * intros [H|(parts' & [= <-] & Hall)]; [discriminate|].
        induction Hall as [|p parts' -> _ IH]; [reflexivity | exact IH].
    + split; [now left | reflexivity].
Qed.

Lemma editImageWithPrompt_first_inline_witness :
  let png := Gateway.mkPart (str "iVBOR") (str "image/png") in
  let r := Gateway.Parts [None; Some png; None] in
  r = Gateway.Parts (map (fun _ : unit => None) [tt] ++ Some png :: [None])
  /\ Gateway.editImageWithPrompt r = Some (str "data:image/png;base64,iVBOR").
Proof.
  intros png r.
  assert (r = Gateway.Parts (map (fun _ : unit => None) [tt]
                             ++ Some png :: [None])) as H by reflexivity.
  split; [exact H|].
  exact (proj1 (editImageWithPrompt_first_inline r) [tt] png [None] H).
Defined.

(** The images the Gateway hands back can be handed to it again: of the
    data URL that [generateImageFromPrompt] or [editImageWithPrompt] builds,
    [fileToGenerativePart] takes the image bytes back, when neither the
    bytes nor the MIME type hold a comma. *)
Theorem data_url_round_trip (bytes mime other : jsstring) url :
  ~ In comma bytes ->
  (forall rest,
      Gateway.generateImageFromPrompt (Gateway.Images (Some (bytes :: rest)))
      = Some url ->
      Gateway.data (Gateway.fileToGenerativePart url other) = Some bytes)
  /\ (forall parts,
         ~ In comma mime ->
         Gateway.editImageWithPrompt
           (Gateway.Parts (Some (Gateway.mkPart bytes mime) :: parts))
         = Some url ->
         Gateway.data (Gateway.fileToGenerativePart url other) = Some bytes).
Proof.
  intros Hb. split.
  - intros rest [= <-].
    destruct (proj2 (proj2 (fileToGenerativePart_data
                (str "data:image/jpeg;base64," ++ bytes) other))
                (str "data:image/jpeg;base64") bytes eq_refl)
      as (payload & more & Hs & Hd).
    + vm_compute. intuition discriminate.
    + rewrite split_no_sep in Hs by assumption. now injection Hs as <- _.
  - intros parts Hm [= <-]. simpl.
    destruct (proj2 (proj2 (fileToGenerativePart_data
                (str "data:" ++ mime ++ str ";base64," ++ bytes) other))
                (str "data:" ++ mime ++ str ";base64") bytes)
      as (payload & more & Hs & Hd).
    + now rewrite <- !app_assoc.
    + intros Hin. apply in_app_or in Hin. destruct Hin as [Hin|Hin].
      * revert Hin. vm_compute. intuition discriminate.
      * apply in_app_or in Hin. destruct Hin as [Hin|Hin]; [tauto|].
        revert Hin. vm_compute. intuition discriminate.
    + rewrite split_no_sep in Hs by assumption. now injection Hs as <- _.
Qed.

Lemma data_url_round_trip_witness :
  (~ In comma (str "iVBOR") /\ ~ In comma (str "image/png"))
  /\ Gateway.data (Gateway.fileToGenerativePart
                     (str "data:image/jpeg;base64,iVBOR") (str "image/jpeg"))
     = Some (str "iVBOR")
  /\ Gateway.data (Gateway.fileToGenerativePart
                     (str "data:image/png;base64,iVBOR") (str "image/png"))
     = Some (str "iVBOR").
Proof.
  assert (~ In comma (str "iVBOR")) as H1
    by (vm_compute; intuition discriminate).
  assert (~ In comma (str "image/png")) as H2
    by (vm_compute; intuition discriminate).
  split; [exact (conj H1 H2)|]. split.
  - exact (proj1 (data_url_round_trip (str "iVBOR") (str "image/png")
                    (str "image/jpeg") (str "data:image/jpeg;base64,iVBOR") H1)
             [] eq_refl).
  - exact (proj2 (data_url_round_trip (str "iVBOR") (str "image/png")
                    (str "image/png") (str "data:image/png;base64,iVBOR") H1)
             [] H2 eq_refl).
Defined.

(** ** The image editor *)

Section Editor.

Lemma editor_consistent_step st e :
  editor_consistent st -> editor_consistent (ImageEditor.step st e).
Proof.
  intros (Ha & Hl & Hi & Hd & Hs).
  destruct e as [v| |r]; simpl.
  - unfold ImageEditor.setPrompt, editor_consistent. simpl. auto.
  - unfold ImageEditor.click, ImageEditor.handleEditImage.
    destruct (ImageEditor.isLoading st) eqn:El; simpl;
      [unfold editor_consistent; rewrite El; auto|].
    destruct (truthy (ImageEditor.prompt st)) eqn:Et; simpl;
      [|unfold editor_consistent; rewrite El; auto].
    unfold editor_consistent. simpl. rewrite Ha. repeat split; try discriminate.
    + intros H'. now apply app_eq_nil in H'.
    + apply Forall_app. split; [assumption|].
      constructor; [now apply truthy_true | constructor].
  - unfold ImageEditor.settled. rewrite Ha.
    destruct (ImageEditor.isLoading st) eqn:El;
      [|unfold editor_consistent; rewrite El; auto].
    destruct (Hl eq_refl) as (Hne & Hedit & Herr).
    destruct (Gateway.editImageWithPrompt r) as [result|];
      unfold editor_consistent; simpl; repeat split;
      try discriminate; try assumption; try contradiction.
    + intros _ _. left. split; [discriminate | assumption].
    + intros _ _. right. now split.
Qed.

End Editor.

(** Whatever the user types and clicks and however the requests settle,
    the image editor has at most one request awaited, shows neither image
    nor error while it waits, and once a request has settled shows the
    edited image or the error message, never both; it never sends an empty
    instruction. *)
Theorem image_editor_consistent (evs : list ImageEditor.Event) :
  editor_consistent (ImageEditor.run ImageEditor.init evs).
Proof.
  unfold ImageEditor.run.
  apply fold_left_invariant; [apply editor_consistent_step|].
  unfold editor_consistent. simpl. repeat split; try discriminate; auto.
Qed.

(** ** The chat, whatever the order of events *)

Section ChatAnyOrder.


End ChatAnyOrder.


(** Before the mount effect has made the chat session, nothing is sent and
    the transcript stays empty. *)
Theorem chat_needs_session (evs : list ChatBot.Event) :
  ChatBot.messages (ChatBot.run ChatBot.init evs) = []
  /\ ChatBot.sent (ChatBot.run ChatBot.init evs) = [].
Proof.
  unfold ChatBot.run.
  apply (fold_left_invariant ChatBot.step
           (fun st => ChatBot.chat st = false /\ ChatBot.isLoading st = false
                      /\ ChatBot.messages st = [] /\ ChatBot.sent st = []));
    [|now repeat split].
  intros st e (Hc & Hl & Hm & Hs). destruct e as [v| |r]; simpl.
  - now repeat split.
  - unfold ChatBot.handleSend. rewrite Hc, orb_true_r. simpl. now repeat split.
  - unfold ChatBot.settled. rewrite Hl. now repeat split.
Qed.

(** ** Image generation beside the prompt synchronisation *)

Section Generation.

Lemma generation_consistent_step st e :
  generation_consistent st -> generation_consistent (ImageGeneration.step st e).
Proof.
  intros (Ha & Hl & Hs).
  destruct e as [e'| |r]; simpl.
  - now repeat split.
  - unfold ImageGeneration.click, ImageGeneration.buttonEnabled,
      ImageGeneration.handleGenerateImage.
    destruct (PromptGenerator.promptParts (ImageGeneration.core st)) as [p|];
      [|now repeat split].
    destruct (negb (PromptGenerator.isLoadingAnalysis (ImageGeneration.core st)));
      simpl; [|now repeat split].
    destruct (ImageGeneration.isLoadingGeneration st) eqn:El; simpl;
      [unfold generation_consistent; rewrite El; now repeat split|].
    destruct (truthy (fullPrompt p)) eqn:Et; simpl;
      [|unfold generation_consistent; rewrite El; now repeat split].
    unfold generation_consistent. simpl. rewrite Ha. repeat split.
    apply Forall_app. split; [assumption|].
    constructor; [now apply truthy_true | constructor].
  - unfold ImageGeneration.settled. rewrite Ha.
    destruct (ImageGeneration.isLoadingGeneration st) eqn:El;
      [|unfold generation_consistent; rewrite El; now repeat split].
    destruct (Gateway.generateImageFromPrompt r);
      unfold generation_consistent; simpl; repeat split;
      try discriminate; assumption.
Qed.

(** No handler of the prompt synchronisation reads the error message. *)
Lemma sync_part_step s s' e :
  ImageGeneration.sync_part s = ImageGeneration.sync_part s' ->
  ImageGeneration.sync_part (step s e) = ImageGeneration.sync_part (step s' e).
Proof.
  unfold ImageGeneration.sync_part. destruct s, s'. unfold with_error. simpl.
  intros [= -> -> -> -> -> -> -> -> -> ->].
  destruct e as [field value|ms|r|i r]; unfold_handlers; simpl;
    case_matches; simpl; try reflexivity; try congruence.
Qed.

End Generation.

(** Whatever happens, at most one image generation is awaited, no image is
    shown while it is, and the prompt given to the Gateway is never empty. *)
Theorem generation_always_consistent (evs : list ImageGeneration.Event) :
  generation_consistent (ImageGeneration.run ImageGeneration.mounted evs).
Proof.
  unfold ImageGeneration.run.
  apply fold_left_invariant; [apply generation_consistent_step|].
  repeat split. constructor.
Qed.

(** Generating images does not disturb the prompt synchronisation: but for
    the error message, which both share, the prompt, the dirty flag, the
    debounce and the requests sent are those of the run without the clicks
    on the button and the settled generations. *)
Theorem generation_leaves_synchronisation (st : ImageGeneration.State)
    (evs : list ImageGeneration.Event) :
  ImageGeneration.sync_part (ImageGeneration.core (ImageGeneration.run st evs))
  = ImageGeneration.sync_part
      (run (ImageGeneration.core st) (ImageGeneration.sync_events evs)).
Proof.
  assert (forall evs st s,
             ImageGeneration.sync_part (ImageGeneration.core st)
             = ImageGeneration.sync_part s ->
             ImageGeneration.sync_part
               (ImageGeneration.core (ImageGeneration.run st evs))
             = ImageGeneration.sync_part
                 (run s (ImageGeneration.sync_events evs))) as H.
  { clear. induction evs as [|e evs IH]; intros st s Hs; [exact Hs|].
    destruct e as [e'| |r]; simpl.
    - apply IH. simpl. now apply sync_part_step.
    - apply IH. rewrite <- Hs.
      unfold ImageGeneration.click, ImageGeneration.handleGenerateImage.
      destruct (ImageGeneration.buttonEnabled st); [|reflexivity].
      destruct (promptParts (ImageGeneration.core st)) as [p|]; [|reflexivity].
      destruct (negb (truthy (fullPrompt p))); reflexivity.
    - apply IH. rewrite <- Hs. unfold ImageGeneration.settled.
      destruct (ImageGeneration.awaited st); [reflexivity|].
      destruct (Gateway.generateImageFromPrompt r); reflexivity. }
  now apply H.
Qed.

(** ** The requests of the prompt synchronisation *)

Section Requests.

(** A step that sends a re-analysis request is a timer firing with a text
    that is not blank, which becomes the debounced text. *)
Lemma step_sends st e v :
  calls (step st e) = calls st ++ [BreakdownPrompt v] ->
  exists ms remaining,
    e = Elapse ms /\ handler st = Some (remaining, v)
    /\ trim v <> [] /\ debouncedFullPrompt (step st e) = v
    /\ promptParts (step st e) = promptParts st.
Proof.
  intros H.
  assert (calls (step st e) <> calls st) as Hne.
  { rewrite H. intros E. apply (f_equal (@length _)) in E.
    rewrite length_app in E. simpl in E. lia. }
  destruct (step_effect st e) as [[Hc _]|(v' & ms & -> & Hc & _ & _)];
    [contradiction|].
  rewrite Hc in H. apply app_inv_head in H. injection H as ->.
  revert Hc. simpl. unfold elapse.
  destruct (handler st) as [[remaining captured]|] eqn:Hh.
  2:{ intros E. exfalso. apply (f_equal (@length _)) in E.
      rewrite length_app in E. simpl in E. lia. }
  destruct (remaining <=? ms).
  2:{ simpl. intros E. exfalso. apply (f_equal (@length _)) in E.
      rewrite length_app in E. simpl in E. lia. }
  unfold setDebouncedFullPrompt, triggerEffect, reAnalyzePrompt. simpl.
  destruct (eqb (debouncedFullPrompt st) captured); simpl.
  { intros E. exfalso. apply (f_equal (@length _)) in E.
    rewrite length_app in E. simpl in E. lia. }
  destruct (truthy captured && userIsEditingFullPrompt st
            && initialAnalysisDone st); simpl.
  2:{ intros E. exfalso. apply (f_equal (@length _)) in E.
      rewrite length_app in E. simpl in E. lia. }
  destruct (truthy (trim captured)) eqn:Et; simpl.
  2:{ intros E. exfalso. apply (f_equal (@length _)) in E.
      rewrite length_app in E. simpl in E. lia. }
  intros E. apply app_inv_head in E. injection E as ->.
  exists ms, remaining. repeat split. now apply truthy_true.
Qed.

Lemma nothing_to_edit_step st e :
  nothing_to_edit st ->
  analysisPending st = false \/ is_analysis_settled e = false ->
  step st e = st.
Proof.
  intros (Hp & Hh & Hr) Ha. destruct e as [field value|ms|r|i r]; simpl.
  - unfold handlePromptPartChange. now rewrite Hp.
  - unfold elapse. now rewrite Hh.
  - destruct Ha as [Ha|Ha]; [|discriminate].
    unfold analysisSettled. now rewrite Ha.
  - unfold reanalysisSettled. rewrite Hr. now destruct i.
Qed.

Lemma promptParts_elapse st ms : promptParts (elapse ms st) = promptParts st.
Proof. unfold_handlers. now case_matches. Qed.

End Requests.

(** The image is analysed once, when the component mounts, and never
    again: whatever happens, the log of the requests is that one analysis
    followed by re-analyses only, each of a text that is not blank. *)
Theorem image_analysed_once (evs : list Event) :
  exists l,
    calls (run mounted evs) = AnalyzeImage :: l
    /\ Forall (fun c => exists v, c = BreakdownPrompt v /\ trim v <> []) l.
Proof.
  unfold run.
  apply (fold_left_invariant step
           (fun st => exists l, calls st = AnalyzeImage :: l
                                /\ Forall (fun c => exists v,
                                               c = BreakdownPrompt v
                                               /\ trim v <> []) l)).
  - intros st e (l & Hl & Hall).
    destruct (step_effect st e) as [[Hc _]|(v & ms & _ & Hc & _ & _)].
    + exists l. now rewrite Hc.
    + destruct (step_sends st e v Hc) as (_ & _ & _ & _ & Hv & _).
      exists (l ++ [BreakdownPrompt v]). rewrite Hc, Hl. split; [reflexivity|].
      apply Forall_app. split; [assumption|].
      constructor; [now exists v | constructor].
  - exists []. split; [reflexivity | constructor].
Qed.

(** A re-analysis request carries the full prompt as it stands when the
    request is sent: the text on the screen, never a blank one, and sending
    it leaves the prompt as it is. *)
Theorem reanalysis_sends_current_text (evs : list Event) e v :
  calls (step (run mounted evs) e)
  = calls (run mounted evs) ++ [BreakdownPrompt v] ->
  trim v <> []
  /\ fullPrompt_dep (promptParts (run mounted evs)) = Some v
  /\ promptParts (step (run mounted evs) e) = promptParts (run mounted evs)
  /\ debouncedFullPrompt (step (run mounted evs) e) = v.
Proof.
  intros H.
  destruct (step_sends _ _ _ H) as (ms & remaining & _ & Hh & Hv & Hd & Hp).
  destruct (tracks_run mounted evs tracks_mounted _ _ Hh) as (p & Hp' & <-).
  repeat split; try assumption. now rewrite Hp'.
Qed.

Lemma reanalysis_sends_current_text_witness :
  let p := mkParts (str "a cat") [] [] [] [] [] [] (str "a cat") in
  let evs := [AnalysisSettled (Json p); UserEdit KfullPrompt (str "a dog");
              UserEdit Kscene (str "a fox")] in
  calls (step (run mounted evs) (Elapse 500))
  = calls (run mounted evs) ++ [BreakdownPrompt (str "a dog")]
  /\ fullPrompt_dep (promptParts (run mounted evs)) = Some (str "a dog").
Proof.
  intros p evs.
  assert (calls (step (run mounted evs) (Elapse 500))
          = calls (run mounted evs) ++ [BreakdownPrompt (str "a dog")]) as H
    by reflexivity.
  split; [exact H|].
  exact (proj1 (proj2 (reanalysis_sends_current_text evs (Elapse 500)
                         (str "a dog") H))).
Defined.

(** Until the image analysis settles there is nothing to edit: edits,
    time passing and stray settlements leave the component as it was
    mounted, loading, without a prompt, and nothing more is sent. *)
Theorem nothing_happens_before_analysis (evs : list Event) :
  forallb (fun e => negb (is_analysis_settled e)) evs = true ->
  run mounted evs = mounted.
Proof.
  induction evs as [|e evs IH] using rev_ind; intros H; [reflexivity|].
  rewrite forallb_app in H. apply andb_true_iff in H. destruct H as [H He].
  simpl in He. rewrite andb_true_r in He. apply negb_true_iff in He.
  rewrite run_app, (IH H). simpl.
  apply nothing_to_edit_step; [now repeat split | now right].
Qed.

Lemma nothing_happens_before_analysis_witness :
  let evs := [UserEdit KfullPrompt (str "a dog"); Elapse 700;
              UserEdit Kscene (str "a fox"); ReanalysisSettled 0 Failure] in
  forallb (fun e => negb (is_analysis_settled e)) evs = true
  /\ run mounted evs = mounted.
Proof.
  intros evs.
  assert (forallb (fun e => negb (is_analysis_settled e)) evs = true) as H
    by reflexivity.
  split; [exact H|].
  exact (nothing_happens_before_analysis evs H).
Defined.

(** A failed image analysis is final: the error is set, there is no
    prompt, and no edit, no time passing and no settlement changes the
    component or sends a request again. *)
Theorem failed_analysis_is_final (evs : list Event) :
  run (run mounted [AnalysisSettled Failure]) evs
  = run mounted [AnalysisSettled Failure]
  /\ promptParts (run mounted [AnalysisSettled Failure]) = None
  /\ error (run mounted [AnalysisSettled Failure]) = Some analyze_error
  /\ isLoadingAnalysis (run mounted [AnalysisSettled Failure]) = false
  /\ calls (run mounted [AnalysisSettled Failure]) = [AnalyzeImage].
Proof.
  split; [|now repeat split].
  unfold run at 1.
  apply (fold_left_invariant step
           (fun st => st = run mounted [AnalysisSettled Failure]));
    [|reflexivity].
  intros st e ->. apply nothing_to_edit_step; [now repeat split | now left].
Qed.

(** Once there is a prompt there is always one: no event, not a failed
    re-analysis either, takes it away. *)
Theorem prompt_stays_present st p (evs : list Event) :
  promptParts st = Some p ->
  exists p', promptParts (run st evs) = Some p'.
Proof.
  intros Hp. unfold run.
  apply (fold_left_invariant step
           (fun st => exists p', promptParts st = Some p'));
    [|now exists p].
  clear. intros st e (p & Hp).
  destruct e as [field value|ms|r|i r]; simpl.
  - unfold handlePromptPartChange. rewrite Hp.
    destruct (Key_eqb field KfullPrompt);
      rewrite promptParts_setPromptParts; eauto.
  - rewrite promptParts_elapse. eauto.
  - unfold analysisSettled. destruct (analysisPending st); [|eauto].
    destruct r as [parsed|]; simpl; [|eauto].
    rewrite promptParts_setPromptParts. eauto.
  - unfold reanalysisSettled.
    destruct (nth_error (reanalysisPending st) i) as [prompt|]; [|eauto].
    destruct r as [parsed|]; simpl; [|eauto].
    rewrite promptParts_setPromptParts. eauto.
Qed.

Lemma prompt_stays_present_witness :
  let p := mkParts (str "a cat") [] [] [] [] [] [] (str "a cat") in
  let st := run mounted [AnalysisSettled (Json p)] in
  let evs := [UserEdit KfullPrompt []; Elapse 500;
              UserEdit KfullPrompt (str "a dog"); Elapse 500;
              ReanalysisSettled 0 Failure] in
  promptParts st = Some p
  /\ exists p', promptParts (run st evs) = Some p'.
Proof.
  intros p st evs.
  assert (promptParts st = Some p) as H by reflexivity.
  split; [exact H|].
  exact (prompt_stays_present st p evs H).
Defined.

(** The overlay of the re-analysis is shown only while a request is
    awaited. *)
Theorem syncing_only_while_awaited (evs : list Event) :
  isReanalyzing (run mounted evs) = true ->
  reanalysisPending (run mounted evs) <> [].
Proof.
  unfold run.
  apply (fold_left_invariant step
           (fun st => isReanalyzing st = true -> reanalysisPending st <> []));
    [|discriminate].
  intros st e H.
  destruct e as [field value|ms|r|i r]; unfold_handlers; simpl;
    case_matches; simpl; try assumption; try discriminate;
    intros _ E; now apply app_eq_nil in E.
Qed.

Lemma syncing_only_while_awaited_witness :
  let p := mkParts (str "a cat") [] [] [] [] [] [] (str "a cat") in
  let evs := [AnalysisSettled (Json p); UserEdit KfullPrompt (str "a dog");
              Elapse 500] in
  isReanalyzing (run mounted evs) = true
  /\ reanalysisPending (run mounted evs) <> [].
Proof.
  intros p evs.
  assert (isReanalyzing (run mounted evs) = true) as H by reflexivity.
  split; [exact H|].
  exact (syncing_only_while_awaited evs H).
Defined.

(** A direct edit of the full prompt commits the text as typed, without
    normalising it, leaves the seven named parts and the debounced text as
    they are, raises the dirty flag and sends nothing by itself. *)
Theorem full_prompt_edit_is_verbatim st p v :
  promptParts st = Some p ->
  exists p',
    promptParts (step st (UserEdit KfullPrompt v)) = Some p'
    /\ fullPrompt p' = v
    /\ (forall field, field <> KfullPrompt -> get field p' = get field p)
    /\ userIsEditingFullPrompt (step st (UserEdit KfullPrompt v)) = true
    /\ debouncedFullPrompt (step st (UserEdit KfullPrompt v))
       = debouncedFullPrompt st
    /\ calls (step st (UserEdit KfullPrompt v)) = calls st.
Proof.
  intros Hp. exists (set KfullPrompt v p).
  split.
  { simpl. unfold handlePromptPartChange. rewrite Hp. simpl.
    apply promptParts_setPromptParts. }
  split; [reflexivity|]. split.
  { intros field Hf. now apply get_set_other. }
  simpl. unfold handlePromptPartChange. rewrite Hp. simpl.
  repeat split; unfold_handlers; simpl; now case_matches.
Qed.

Lemma full_prompt_edit_is_verbatim_witness :
  let p := mkParts (str "a cat") [] [] [] [] [] [] (str "a cat") in
  let st := run mounted [AnalysisSettled (Json p)] in
  promptParts st = Some p
  /\ exists p',
    promptParts (step st (UserEdit KfullPrompt (str " a dog ,, "))) = Some p'
    /\ fullPrompt p' = str " a dog ,, ".
Proof.
  intros p st.
  assert (promptParts st = Some p) as H by reflexivity.
  split; [exact H|].
  destruct (full_prompt_edit_is_verbatim st p (str " a dog ,, ") H)
    as (p' & H1 & H2 & _).
  exists p'. exact (conj H1 H2).
Defined.

(** ** Bursts of edits *)

Section Bursts.

(** Committing a prompt with another full prompt restarts the timer. *)
Lemma setPromptParts_changed st p q :
  promptParts st = Some p -> fullPrompt q <> fullPrompt p ->
  handler (setPromptParts (Some q) st)
  = (if truthy (fullPrompt q) then Some (debounce_ms, fullPrompt q) else None)
  /\ userIsEditingFullPrompt (setPromptParts (Some q) st)
     = userIsEditingFullPrompt st
  /\ initialAnalysisDone (setPromptParts (Some q) st) = initialAnalysisDone st
  /\ debouncedFullPrompt (setPromptParts (Some q) st) = debouncedFullPrompt st
  /\ calls (setPromptParts (Some q) st) = calls st.
Proof.
  intros Hp Hne. unfold setPromptParts. rewrite Hp. simpl.
  assert (eqb (fullPrompt p) (fullPrompt q) = false) as ->
    by (apply eqb_neq; congruence).
  unfold debounceEffect. simpl.
  destruct (truthy (fullPrompt q)); simpl; auto 10.
Qed.

(** A part edit that changes the full prompt restarts the timer. *)
Lemma part_edit_restarts_timer st p field value :
  promptParts st = Some p -> field <> KfullPrompt ->
  fullPrompt (editPart p field value) <> fullPrompt p ->
  handler (step st (UserEdit field value))
  = (if truthy (fullPrompt (editPart p field value))
     then Some (debounce_ms, fullPrompt (editPart p field value)) else None)
  /\ userIsEditingFullPrompt (step st (UserEdit field value))
     = userIsEditingFullPrompt st
  /\ initialAnalysisDone (step st (UserEdit field value))
     = initialAnalysisDone st
  /\ debouncedFullPrompt (step st (UserEdit field value))
     = debouncedFullPrompt st
  /\ calls (step st (UserEdit field value)) = calls st.
Proof.
  intros Hp Hf Hne. cbn [step]. unfold handlePromptPartChange.
  rewrite Hp, (Key_eqb_neq _ _ Hf).
  now apply (setPromptParts_changed st p).
Qed.

End Bursts.

(** The debounce coalesces a burst of any length: after any number of
    edits of the full prompt that each change the text and each come less
    than 500 ms after the one before, a last edit to a text that is not
    blank and is not the debounced text sends, 500 ms later and not before,
    one re-analysis request, for the last text, as long as nothing is
    committed meanwhile: no other edit, no response of the Gateway but
    failures. *)
Theorem debounce_coalesces_any_burst st p burst v gap :
  promptParts st = Some p ->
  initialAnalysisDone st = true ->
  quick_changes (fullPrompt p) burst ->
  v <> last_text (fullPrompt p) burst ->
  quiet gap = true ->
  trim v <> [] ->
  v <> debouncedFullPrompt st ->
  calls (run st (burst_events burst ++ UserEdit KfullPrompt v :: gap))
  = calls st
    ++ (if debounce_ms <=? elapsed gap then [BreakdownPrompt v] else []).
Proof.
  intros Hp Hi Hq Hv Hquiet Hblank Hdeb. rewrite run_app, run_cons.
  destruct (burst_is_quiet burst st p Hp Hq)
    as (p' & Hp' & Hf' & Hi' & Hb' & Hc').
  set (st' := run st (burst_events burst)) in *.
  rewrite <- Hf' in Hv.
  destruct (edit_restarts_timer st' p' v Hp' Hv)
    as (_ & Hh & Hflag & Hi1 & Hb1 & Hc1).
  assert (truthy v = true) as Ht.
  { apply truthy_true. intros ->. now apply Hblank. }
  rewrite Ht in Hh.
  destruct (gap_fires gap (step st' (UserEdit KfullPrompt v)) debounce_ms v
              Hquiet Hh)
    as [Hcalls _]; try congruence.
  reflexivity.
Qed.

Lemma debounce_coalesces_any_burst_witness :
  let p := mkParts (str "a cat") [] [] [] [] [] [] (str "a cat") in
  let st := run mounted [AnalysisSettled (Json p); Elapse 500] in
  let burst := [(str "a", [Elapse 100]); (str "a ", [Elapse 80]);
                (str "a d", [Elapse 60; ReanalysisSettled 0 Failure; Elapse 60]);
                (str "a do", [Elapse 499])] in
  let gap := [Elapse 250; Elapse 250; Elapse 1000] in
  (promptParts st = Some p /\ initialAnalysisDone st = true
   /\ quick_changes (fullPrompt p) burst
   /\ str "a dog" <> last_text (fullPrompt p) burst
   /\ quiet gap = true
   /\ trim (str "a dog") <> [] /\ str "a dog" <> debouncedFullPrompt st)
  /\ calls (run st (burst_events burst
                    ++ UserEdit KfullPrompt (str "a dog") :: gap))
     = [AnalyzeImage; BreakdownPrompt (str "a dog")].
Proof.
  intros p st burst gap.
  assert (promptParts st = Some p) as H1 by reflexivity.
  assert (initialAnalysisDone st = true) as H2 by reflexivity.
  assert (quick_changes (fullPrompt p) burst) as H3.
  { simpl. repeat split; try discriminate. }
  assert (str "a dog" <> last_text (fullPrompt p) burst) as H4 by discriminate.
  assert (quiet gap = true) as Hq by reflexivity.
  assert (trim (str "a dog") <> []) as H5 by (vm_compute; discriminate).
  assert (str "a dog" <> debouncedFullPrompt st) as H6
    by (vm_compute; discriminate).
  split; [exact (conj H1 (conj H2 (conj H3 (conj H4 (conj Hq (conj H5 H6))))))|].
  exact (debounce_coalesces_any_burst st p burst (str "a dog") gap
           H1 H2 H3 H4 Hq H5 H6).
Defined.

(** The dirty flag is spent by the next text that passes the debounce,
    whoever changed it: when the flag is up, an edit of a named part that
    changes the full prompt to a text that is not blank and is not the
    debounced text sends, 500 ms later, a re-analysis request for the
    full prompt the edit made, and lowers the flag, as long as nothing is
    committed meanwhile: no other edit, no response of the Gateway but
    failures. *)
Theorem part_edit_spends_raised_flag st p field value gap :
  promptParts st = Some p ->
  userIsEditingFullPrompt st = true ->
  initialAnalysisDone st = true ->
  field <> KfullPrompt ->
  fullPrompt (editPart p field value) <> fullPrompt p ->
  trim (fullPrompt (editPart p field value)) <> [] ->
  fullPrompt (editPart p field value) <> debouncedFullPrompt st ->
  quiet gap = true ->
  calls (run st (UserEdit field value :: gap))
  = calls st ++ (if debounce_ms <=? elapsed gap
                 then [BreakdownPrompt (fullPrompt (editPart p field value))]
                 else [])
  /\ ((debounce_ms <=? elapsed gap) = true ->
      userIsEditingFullPrompt (run st (UserEdit field value :: gap)) = false).
Proof.
  intros Hp Hflag Hi Hf Hne Hblank Hdeb Hq.
  destruct (part_edit_restarts_timer st p field value Hp Hf Hne)
    as (Hh & Hf1 & Hi1 & Hb1 & Hc1).
  assert (truthy (fullPrompt (editPart p field value)) = true) as Ht.
  { apply truthy_true. intros E. rewrite E in Hblank. now apply Hblank. }
  rewrite Ht in Hh. rewrite run_cons.
  destruct (gap_fires gap (step st (UserEdit field value)) debounce_ms _ Hq Hh)
    as [Hcalls Hlow]; try congruence; [reflexivity|].
  split; [congruence | assumption].
Qed.

Lemma part_edit_spends_raised_flag_witness :
  let p := mkParts (str "a cat") [] [] [] [] [] [] (str "a cat") in
  let st := run mounted [AnalysisSettled (Json p); Elapse 500;
                         UserEdit KfullPrompt (str "a cat!"); Elapse 100;
                         UserEdit KfullPrompt (str "a cat"); Elapse 500] in
  let gap := [Elapse 200; ReanalysisSettled 0 Failure; Elapse 300] in
  (promptParts st = Some p /\ userIsEditingFullPrompt st = true
   /\ initialAnalysisDone st = true /\ calls st = [AnalyzeImage]
   /\ Kscene <> KfullPrompt
   /\ fullPrompt (editPart p Kscene (str "a dog")) <> fullPrompt p
   /\ trim (fullPrompt (editPart p Kscene (str "a dog"))) <> []
   /\ fullPrompt (editPart p Kscene (str "a dog")) <> debouncedFullPrompt st
   /\ quiet gap = true)
  /\ calls (run st (UserEdit Kscene (str "a dog") :: gap))
     = [AnalyzeImage; BreakdownPrompt (str "a dog")].
Proof.
  intros p st gap.
  assert (promptParts st = Some p) as H1 by reflexivity.
  assert (userIsEditingFullPrompt st = true) as H2 by reflexivity.
  assert (initialAnalysisDone st = true) as H3 by reflexivity.
  assert (calls st = [AnalyzeImage]) as H3' by reflexivity.
  assert (Kscene <> KfullPrompt) as H4 by discriminate.
  assert (fullPrompt (editPart p Kscene (str "a dog")) <> fullPrompt p) as H5
    by (vm_compute; discriminate).
  assert (trim (fullPrompt (editPart p Kscene (str "a dog"))) <> []) as H6
    by (vm_compute; discriminate).
  assert (fullPrompt (editPart p Kscene (str "a dog"))
          <> debouncedFullPrompt st) as H7 by (vm_compute; discriminate).
  assert (quiet gap = true) as H8 by reflexivity.
  split.
  - exact (conj H1 (conj H2 (conj H3 (conj H3' (conj H4 (conj H5
            (conj H6 (conj H7 H8)))))))).
  - exact (proj1 (part_edit_spends_raised_flag st p Kscene (str "a dog") gap
                    H1 H2 H3 H4 H5 H6 H7 H8)).
Defined.

(** ** More on the edit of a named part *)

Section PartEditMore.

Lemma content_blank (s : jsstring) : trim s = [] -> content s = [].
Proof.
  intros H. apply trim_all_ws in H. unfold content.
  induction s as [|c r IH]; [reflexivity|]. simpl in *.
  apply andb_true_iff in H. destruct H as [-> H]. simpl. now apply IH.
Qed.

Lemma normalize_fixed (s : jsstring) : normalize (normalize s) = normalize s.
Proof.
  unfold normalize. now rewrite pieces_of_join by apply pieces_of_split.
Qed.

Lemma replace_same (s pat : jsstring) :
  ~ In dollar pat -> replace s pat pat = s.
Proof.
  intros H. destruct (indexOf pat s) as [n|] eqn:E.
  - destruct (indexOf_Some _ _ _ E) as [Hocc _].
    rewrite (replace_first _ _ _ _ _ H Hocc). symmetry. exact (proj1 Hocc).
  - now apply replace_absent, indexOf_None.
Qed.

Lemma set_get field p : set field (get field p) p = p.
Proof. now destruct field, p. Qed.

Lemma fullPrompt_editPart p field value :
  fullPrompt (editPart p field value)
  = normalize
      (if truthy (get field p) && truthy (trim (get field p))
       then replace (fullPrompt p) (get field p) value
       else if truthy value && truthy (trim value)
            then if negb (truthy (trim (fullPrompt p))) then value
                 else fullPrompt p ++ str ", " ++ value
            else fullPrompt p).
Proof. reflexivity. Qed.

End PartEditMore.

(** Committing to a named part the value it has changes nothing but the
    form of the full prompt, which is normalised: the text of the part is
    replaced by itself, or, when the part is blank, nothing is appended. *)
Theorem part_edit_same_value st p field :
  promptParts st = Some p ->
  field <> KfullPrompt ->
  ~ In dollar (get field p) ->
  exists p',
    promptParts (step st (UserEdit field (get field p))) = Some p'
    /\ fullPrompt p' = normalize (fullPrompt p)
    /\ (forall k, k <> KfullPrompt -> get k p' = get k p)
    /\ (normalize (fullPrompt p) = fullPrompt p -> p' = p).
Proof.
  intros Hp Hf Hd. exists (editPart p field (get field p)).
  split; [now apply promptParts_part_edit|].
  assert (fullPrompt (editPart p field (get field p))
          = normalize (fullPrompt p)) as Hfull.
  { rewrite fullPrompt_editPart.
    destruct (truthy (get field p) && truthy (trim (get field p)));
      [now rewrite replace_same|reflexivity]. }
  split; [exact Hfull|]. split.
  - intros k Hk. unfold editPart.
    rewrite get_set_other by assumption. now rewrite set_get.
  - intros Hn. unfold editPart in *.
    rewrite set_get in *. rewrite fullPrompt_set_fullPrompt in Hfull.
    rewrite Hfull, Hn. apply (set_get KfullPrompt).
Qed.

Lemma part_edit_same_value_witness :
  let p := mkParts (str "a cat") [] [] [] [] [] [] (str "a cat, sitting") in
  let st := run mounted [AnalysisSettled (Json p)] in
  (promptParts st = Some p /\ Kscene <> KfullPrompt
   /\ ~ In dollar (get Kscene p) /\ normalize (fullPrompt p) = fullPrompt p)
  /\ promptParts (step st (UserEdit Kscene (get Kscene p))) = Some p.
Proof.
  intros p st.
  assert (promptParts st = Some p) as H1 by reflexivity.
  assert (Kscene <> KfullPrompt) as H2 by discriminate.
  assert (~ In dollar (get Kscene p)) as H3
    by (vm_compute; intuition discriminate).
  assert (normalize (fullPrompt p) = fullPrompt p) as H4 by reflexivity.
  split; [exact (conj H1 (conj H2 (conj H3 H4)))|].
  destruct (part_edit_same_value st p Kscene H1 H2 H3) as (p' & Hp' & _ & _ & He).
  rewrite Hp'. f_equal. exact (He H4).
Defined.

(** Whatever part is edited and to whatever value, the full prompt that
    results is in normal form: normalising it again changes nothing and it
    has no white space at either end. *)
Theorem part_edit_yields_normal_form st p field value :
  promptParts st = Some p ->
  field <> KfullPrompt ->
  exists p',
    promptParts (step st (UserEdit field value)) = Some p'
    /\ normalize (fullPrompt p') = fullPrompt p'
    /\ trim (fullPrompt p') = fullPrompt p'.
Proof.
  intros Hp Hf. exists (editPart p field value).
  split; [now apply promptParts_part_edit|].
  rewrite fullPrompt_editPart.
  set (s := if truthy (get field p) && truthy (trim (get field p)) then _ else _).
  split; [apply normalize_fixed|].
  unfold normalize.
  destruct (filter truthy (map trim (split comma s))) as [|q qs] eqn:E;
    [reflexivity|].
  pose proof (pieces_of_split s) as Hall. rewrite E in Hall.
  destruct (join_pieces_ends (q :: qs) ltac:(discriminate) Hall)
    as [(c & r & Hc & Hwc) (d & r' & Hd & Hwd)].
  exact (trim_fixed _ _ _ _ _ Hc Hwc Hd Hwd).
Qed.

Lemma part_edit_yields_normal_form_witness :
  let p := mkParts (str "a cat") [] [] [] [] [] []
             (str "  a cat ,, sitting ,") in
  let st := run mounted [AnalysisSettled (Json p)] in
  (promptParts st = Some p /\ Kstyle <> KfullPrompt)
  /\ exists p',
    promptParts (step st (UserEdit Kstyle (str " oil , paint "))) = Some p'
    /\ normalize (fullPrompt p') = fullPrompt p'
    /\ trim (fullPrompt p') = fullPrompt p'.
Proof.
  intros p st.
  assert (promptParts st = Some p) as H1 by reflexivity.
  assert (Kstyle <> KfullPrompt) as H2 by discriminate.
  split; [exact (conj H1 H2)|].
  exact (part_edit_yields_normal_form st p Kstyle (str " oil , paint ") H1 H2).
Defined.

(** Editing a named part that was blank takes nothing out of the full
    prompt: but for commas and white space, the new full prompt is the old
    one followed by the new value. *)
Theorem part_edit_append_keeps_text st p field value :
  promptParts st = Some p ->
  field <> KfullPrompt ->
  trim (get field p) = [] ->
  exists p',
    promptParts (step st (UserEdit field value)) = Some p'
    /\ content (fullPrompt p') = content (fullPrompt p) ++ content value.
Proof.
  intros Hp Hf Hold. exists (editPart p field value).
  split; [now apply promptParts_part_edit|].
  rewrite fullPrompt_editPart, (blank_not_truthy _ Hold).
  rewrite normalize_keeps_content_aux.
  destruct (truthy value && truthy (trim value)) eqn:Ev.
  - destruct (truthy (trim (fullPrompt p))) eqn:Et; simpl.
    + now rewrite !content_app.
    + apply truthy_false in Et. now rewrite (content_blank _ Et).
  - assert (content value = []) as ->; [|now rewrite app_nil_r].
    destruct value as [|c r]; [reflexivity|]. simpl in Ev.
    apply truthy_false in Ev. now apply content_blank.
Qed.

Lemma part_edit_append_keeps_text_witness :
  let p := mkParts (str "a cat") [] [] [] (str "  ") [] [] (str "a cat") in
  let st := run mounted [AnalysisSettled (Json p)] in
  (promptParts st = Some p /\ Ktexture <> KfullPrompt
   /\ trim (get Ktexture p) = [])
  /\ exists p',
    promptParts (step st (UserEdit Ktexture (str "glossy"))) = Some p'
    /\ content (fullPrompt p') = str "acatglossy".
Proof.
  intros p st.
  assert (promptParts st = Some p) as H1 by reflexivity.
  assert (Ktexture <> KfullPrompt) as H2 by discriminate.
  assert (trim (get Ktexture p) = []) as H3 by reflexivity.
  split; [exact (conj H1 (conj H2 H3))|].
  exact (part_edit_append_keeps_text st p Ktexture (str "glossy") H1 H2 H3).
Defined.

(** ** The timer, and edits of the parts alone *)

Section Timer.

Lemma timer_bounds_step st e :
  (forall remaining captured,
      handler st = Some (remaining, captured) ->
      0 < remaining <= debounce_ms /\ captured <> []) ->
  forall remaining captured,
    handler (step st e) = Some (remaining, captured) ->
    0 < remaining <= debounce_ms /\ captured <> [].
Proof.
  intros H remaining captured.
  assert (forall v s r c,
             (forall r' c', handler s = Some (r', c') ->
                            0 < r' <= debounce_ms /\ c' <> []) ->
             handler (setPromptParts v s) = Some (r, c) ->
             0 < r <= debounce_ms /\ c <> []) as Hset.
  { clear. intros v s r c Hs. unfold setPromptParts, debounceEffect.
    destruct (same_dep _ _); simpl; [apply Hs|].
    destruct v as [q|]; [|discriminate].
    destruct (truthy (fullPrompt q)) eqn:Et; simpl; [|discriminate].
    intros [= <- <-]. split; [unfold debounce_ms; lia|].
    now apply truthy_true. }
  destruct e as [field value|ms|r|i r]; simpl.
  - unfold handlePromptPartChange.
    destruct (promptParts st) as [prev|]; [|apply H].
    destruct (Key_eqb field KfullPrompt); apply Hset; exact H.
  - unfold elapse.
    destruct (handler st) as [[remaining' captured']|] eqn:Hh;
      [|intros E; try rewrite Hh in E; discriminate].
    destruct (remaining' <=? ms) eqn:El.
    + intros Hrc. exfalso. revert Hrc.
      unfold_handlers. simpl. case_matches; simpl; discriminate.
    + simpl. intros [= <- <-]. apply N.leb_gt in El.
      destruct (H _ _ eq_refl) as [Hr Hc]. split; [lia | assumption].
  - unfold analysisSettled. destruct (analysisPending st); [|apply H].
    destruct r as [parsed|]; simpl; [apply Hset; exact H | apply H].
  - unfold reanalysisSettled.
    destruct (nth_error (reanalysisPending st) i) as [prompt|]; [|apply H].
    destruct r as [parsed|]; simpl; [apply Hset; exact H | apply H].
Qed.

End Timer.

(** The timer of the debounce, when one is pending, has between 1 and
    500 ms left and carries the full prompt as it stands, which is not
    empty: the debounced text is never older than 500 ms of rest. *)
Theorem pending_timer_is_current (evs : list Event) remaining captured :
  handler (run mounted evs) = Some (remaining, captured) ->
  0 < remaining <= debounce_ms
  /\ captured <> []
  /\ fullPrompt_dep (promptParts (run mounted evs)) = Some captured.
Proof.
  intros Hh.
  assert (0 < remaining <= debounce_ms /\ captured <> []) as [Hr Hc].
  { revert remaining captured Hh. unfold run.
    apply (fold_left_invariant step
             (fun st => forall r c, handler st = Some (r, c) ->
                                    0 < r <= debounce_ms /\ c <> []));
      [intros s e Hs; now apply timer_bounds_step
      | intros r c E; discriminate]. }
  destruct (tracks_run mounted evs tracks_mounted _ _ Hh) as (p & Hp & <-).
  split; [exact Hr|]. split; [exact Hc|]. now rewrite Hp.
Qed.

Lemma pending_timer_is_current_witness :
  let p := mkParts (str "a cat") [] [] [] [] [] [] (str "a cat") in
  let evs := [AnalysisSettled (Json p); UserEdit KfullPrompt (str "a dog");
              Elapse 120; UserEdit Kscene (str "a fox"); Elapse 80] in
  handler (run mounted evs) = Some (300, str "a dog")
  /\ fullPrompt_dep (promptParts (run mounted evs)) = Some (str "a dog").
Proof.
  intros p evs.
  assert (handler (run mounted evs) = Some (300, str "a dog")) as H
    by reflexivity.
  split; [exact H|].
  exact (proj2 (proj2 (pending_timer_is_current evs 300 (str "a dog") H))).
Defined.

(** The named parts are kept in step with the full prompt by local text
    surgery alone: as long as the user does not edit the full prompt
    itself, nothing but the analysis of the image is ever sent, whatever
    parts are edited and however long the user waits. *)
Theorem parts_alone_send_nothing (evs : list Event) :
  no_fullPrompt_edit evs = true ->
  calls (run mounted evs) = [AnalyzeImage]
  /\ userIsEditingFullPrompt (run mounted evs) = false.
Proof.
  intros H. now apply (quiet_without_edit mounted evs).
Qed.

Lemma parts_alone_send_nothing_witness :
  let p := mkParts (str "a cat") [] [] [] [] [] [] (str "a cat, sitting") in
  let evs := [AnalysisSettled (Json p); Elapse 500;
              UserEdit Kscene (str "a dog"); Elapse 500;
              UserEdit Ktexture (str "glossy"); Elapse 2000] in
  no_fullPrompt_edit evs = true
  /\ fullPrompt_dep (promptParts (run mounted evs))
     = Some (str "a dog, sitting, glossy")
  /\ calls (run mounted evs) = [AnalyzeImage].
Proof.
  intros p evs.
  assert (no_fullPrompt_edit evs = true) as H by reflexivity.
  split; [exact H|]. split; [reflexivity|].
  exact (proj1 (parts_alone_send_nothing evs H)).
Defined.
